(** * NOLA News Monitor: a shallow embedding of [monitor.js]

    The class [NolaNewsMonitor] is embedded function by function.  JavaScript
    strings are modelled as Rocq [string]s (one [ascii] per code unit, so the
    model covers text of code units below 256), arrays as [list]s, numbers that may be [NaN] as
    [JSNumber], and the object's fields together with the browser facilities it
    drives (localStorage, timers, notifications, the status line) as one
    explicit [World] record threaded through the methods. *)

From Stdlib Require Import ZArith QArith Qround List Bool Ascii String Lia.
Import ListNotations.

#[local] Open Scope string_scope.
#[local] Open Scope list_scope.
#[local] Open Scope Z_scope.

(* ================================================================== *)
(** ** JavaScript string methods used by the monitor *)
(* ================================================================== *)

Module JS.

(** [s.startsWith(p)] *)
Fixpoint startsWith (s p : string) {struct p} : bool :=
  match p with
  | EmptyString => true
  | String b p' =>
      match s with
      | EmptyString => false
      | String a s' => Ascii.eqb a b && startsWith s' p'
      end
  end.

(** [s.includes(p)] *)
Fixpoint includes (s p : string) : bool :=
  startsWith s p ||
  match s with
  | EmptyString => false
  | String _ s' => includes s' p
  end.

(** [s.substring(n)] *)
Fixpoint drop (n : nat) (s : string) : string :=
  match n, s with
  | O, _ => s
  | S n', String _ s' => drop n' s'
  | S _, EmptyString => EmptyString
  end.

(** [s.substring(0, n)] *)
Fixpoint take (n : nat) (s : string) : string :=
  match n, s with
  | S n', String a s' => String a (take n' s')
  | _, _ => EmptyString
  end.

Definition is_upper (a : ascii) : bool :=
  let n := nat_of_ascii a in (65 <=? n)%nat && (n <=? 90)%nat.
Definition is_lower (a : ascii) : bool :=
  let n := nat_of_ascii a in (97 <=? n)%nat && (n <=? 122)%nat.
Definition is_digit (a : ascii) : bool :=
  let n := nat_of_ascii a in (48 <=? n)%nat && (n <=? 57)%nat.
(** White space as removed by [trim], among the code units below 256: TAB,
    LF, VT, FF, CR, SPACE and the no-break space. *)
Definition is_space (a : ascii) : bool :=
  let n := nat_of_ascii a in
  ((9 <=? n)%nat && (n <=? 13)%nat) || (n =? 32)%nat || (n =? 160)%nat.

(** Upper-case letters of Latin-1 beyond ASCII: 192 to 222 without the
    multiplication sign. *)
Definition is_upper_latin1 (a : ascii) : bool :=
  let n := nat_of_ascii a in (192 <=? n)%nat && (n <=? 222)%nat && negb (n =? 215)%nat.

Definition lower_char (a : ascii) : ascii :=
  if is_upper a || is_upper_latin1 a then ascii_of_nat (nat_of_ascii a + 32) else a.

(** [s.toLowerCase()] *)
Fixpoint toLowerCase (s : string) : string :=
  match s with
  | EmptyString => EmptyString
  | String a s' => String (lower_char a) (toLowerCase s')
  end.

Fixpoint trimStart (s : string) : string :=
  match s with
  | EmptyString => EmptyString
  | String a s' => if is_space a then trimStart s' else s
  end.

(** Drops trailing white space: a character is kept unless everything from it
    to the end of the string is white space. *)
Fixpoint trimEnd (s : string) : string :=
  match s with
  | EmptyString => EmptyString
  | String a s' =>
      match trimEnd s' with
      | EmptyString => if is_space a then EmptyString else String a EmptyString
      | r => String a r
      end
  end.

(** [s.trim()] *)
Definition trim (s : string) : string := trimEnd (trimStart s).

(** [s.split(sep)] for a one-character separator: the pieces between the
    separators, in order (a string without separator gives one piece). *)
Fixpoint split_aux (sep : ascii) (cur : string) (s : string) : list string :=
  match s with
  | EmptyString => [cur]
  | String a s' =>
      if Ascii.eqb a sep then cur :: split_aux sep EmptyString s'
      else split_aux sep (cur ++ String a EmptyString)%string s'
  end.
Definition split (sep : ascii) (s : string) : list string :=
  split_aux sep EmptyString s.

(** Truthiness of a string: the empty string is falsy. *)
Definition truthy (s : string) : bool := negb (String.eqb s "").

(** [a || b] on strings. *)
Definition or_else (a b : string) : string := if truthy a then a else b.

(** [arr.pop()] right after a [split]: the last piece. *)
Definition pop (l : list string) : string := last l "".

Definition dquote : string := String (ascii_of_nat 34) EmptyString.
Definition LF : ascii := ascii_of_nat 10.

(** Decimal rendering of an array index inside a template literal. *)
Definition digit_char (n : nat) : ascii := ascii_of_nat (48 + n).
Fixpoint nat_to_string_aux (fuel n : nat) (acc : string) : string :=
  match fuel with
  | O => acc
  | S f =>
      let acc' := String (digit_char (n mod 10)) acc in
      match (n / 10)%nat with
      | O => acc'
      | q => nat_to_string_aux f q acc'
      end
  end.
Definition nat_to_string (n : nat) : string := nat_to_string_aux (S n) n "".

End JS.

(** A JavaScript number that is an integer or [NaN]. *)
Inductive JSNumber : Type :=
| Num (z : Z)
| NaN.

(* ================================================================== *)
(** ** Data model *)
(* ================================================================== *)

(** The object literal pushed by [parseNewsFromHTML]. *)
Record NewsItem : Type := mkNewsItem {
  id : string;
  title : string;
  url : string;
  date : string;
  source : string;
  excerpt : string;
  timestamp : JSNumber
}.

Inductive ChangeType : Type := NEW | REMOVED.

(** The object literal pushed by [detectChanges]. *)
Record Change : Type := mkChange {
  type : ChangeType;
  item : NewsItem;
  description : string
}.

Definition ChangeType_eqb (a b : ChangeType) : bool :=
  match a, b with
  | NEW, NEW | REMOVED, REMOVED => true
  | _, _ => false
  end.

(* ================================================================== *)
(** ** Change detector: [detectChanges] *)
(* ================================================================== *)

(** [arr.push(x)] *)
Definition push {A} (arr : list A) (x : A) : list A := arr ++ [x].

(** [arr.some(pred)] *)
Definition some {A} (pred : A -> bool) (arr : list A) : bool := existsb pred arr.

Definition new_change (current : NewsItem) : Change :=
  mkChange NEW current
    ("New article: " ++ JS.dquote ++ title current ++ JS.dquote)%string.

Definition removed_change (previous : NewsItem) : Change :=
  mkChange REMOVED previous
    ("Removed article: " ++ JS.dquote ++ title previous ++ JS.dquote)%string.

(** [detectChanges()], reading [this.previousNews] and [this.currentNews].
    The two [forEach] loops are left folds over the array that push onto the
    accumulated [changes]. *)
Definition detectChanges (previousNews currentNews : list NewsItem) : list Change :=
  let changes := [] in
  let changes :=
    fold_left (fun changes current =>
      let existsInPrevious := some (fun prev => String.eqb (id prev) (id current)) previousNews in
      if negb existsInPrevious then push changes (new_change current) else changes)
      currentNews changes in
  let changes :=
    fold_left (fun changes previous =>
      let existsInCurrent := some (fun curr => String.eqb (id curr) (id previous)) currentNews in
      if negb existsInCurrent then push changes (removed_change previous) else changes)
      previousNews changes in
  changes.


(* ================================================================== *)
(** ** Extraction engine: [parseNewsFromHTML] *)
(* ================================================================== *)

(** *** Regular expressions

    A pattern is run as a function that, when the pattern matches at the very
    start of its argument, returns what is left of the argument after the
    match.  Each pattern below is deterministic: wherever a greedy quantifier
    could give characters back, the character that must follow is outside the
    quantified class, so the greedy choice is the only one that can succeed. *)

Module Regex.

Definition matcher : Type := string -> option string.

(** One character of a class. *)
Definition one (p : ascii -> bool) : matcher := fun s =>
  match s with
  | String a s' => if p a then Some s' else None
  | EmptyString => None
  end.

(** A literal. *)
Fixpoint lit (l : string) : matcher := fun s =>
  match l with
  | EmptyString => Some s
  | String b l' =>
      match s with
      | String a s' => if Ascii.eqb a b then lit l' s' else None
      | EmptyString => None
      end
  end.

(** [p*], greedy. *)
Fixpoint many (p : ascii -> bool) (s : string) : string :=
  match s with
  | String a s' => if p a then many p s' else s
  | EmptyString => EmptyString
  end.

(** [m?], greedy. *)
Definition opt (m : matcher) : matcher := fun s =>
  match m s with
  | Some r => Some r
  | None => Some s
  end.

Definition seq (m1 m2 : matcher) : matcher := fun s =>
  match m1 s with
  | Some r => m2 r
  | None => None
  end.

Definition plus (p : ascii -> bool) : matcher :=
  seq (one p) (fun s => Some (many p s)).

Infix ">>" := seq (at level 61, left associativity).

(** [/[A-Z][a-z]+ \d{1,2}, \d{4}/] *)
Definition date_pattern : matcher :=
  one JS.is_upper >> plus JS.is_lower >> lit " " >>
  one JS.is_digit >> opt (one JS.is_digit) >> lit ", " >>
  one JS.is_digit >> one JS.is_digit >> one JS.is_digit >> one JS.is_digit.

(** [:\d+] *)
Definition port : matcher := lit ":" >> plus JS.is_digit.

(** [/https?:\/\/localhost(:\d+)?/] *)
Definition scheme_localhost : matcher :=
  lit "http" >> opt (lit "s") >> lit "://localhost" >> opt port.

(** [/localhost(:\d+)?/] *)
Definition bare_localhost : matcher := lit "localhost" >> opt port.

(** [s.match(re)] without the [g] flag: the text of the leftmost match. *)
Fixpoint search (m : matcher) (s : string) : option string :=
  match m s with
  | Some r => Some (JS.take (String.length s - String.length r) s)
  | None =>
      match s with
      | String _ s' => search m s'
      | EmptyString => None
      end
  end.

(** [s.replace(re, rep)] with the [g] flag: every match, scanning from the
    left and resuming after each match, is replaced.  [fuel] bounds the
    number of scanning steps; [String.length s] steps always suffice because
    the patterns used here never match the empty string. *)
Fixpoint replace_fuel (m : matcher) (rep : string) (fuel : nat) (s : string) : string :=
  match fuel with
  | O => s
  | S fuel' =>
      match m s with
      | Some r => (rep ++ replace_fuel m rep fuel' r)%string
      | None =>
          match s with
          | String a s' => String a (replace_fuel m rep fuel' s')
          | EmptyString => EmptyString
          end
      end
  end.

Definition replace (m : matcher) (rep : string) (s : string) : string :=
  replace_fuel m rep (String.length s) s.

End Regex.

(** *** URL normalisation (the [if]/[else if] chain on [url]) *)

Definition normalize_url (url : string) : string :=
  if JS.truthy url && JS.includes url "localhost" then
    let url := Regex.replace Regex.scheme_localhost "https://nola.gov" url in
    let url := Regex.replace Regex.bare_localhost "nola.gov" url in
    url
  else if JS.truthy url && JS.startsWith url "/" then
    ("https://nola.gov" ++ url)%string
  else if JS.truthy url && negb (JS.startsWith url "http")
          && negb (JS.includes url "nopdnews.com") then
    ("https://nola.gov" ++ (if JS.startsWith url "/" then "" else "/") ++ url)%string
  else url.

(** *** The matched anchors

    [DOMParser] and [querySelectorAll] belong to the browser.  An anchor
    selected by ['h3 a[href*="/"], h3 a[href*="nopdnews.com"]'] is seen by the
    code through four values only. *)
Record Anchor : Type := mkAnchor {
  textContent : string;            (* linkElement.textContent *)
  getAttribute_href : option string; (* linkElement.getAttribute('href'), None for null *)
  href : string;                   (* linkElement.href *)
  container_textContent : string   (* (closest('div') || parentElement).textContent || '' *)
}.

(** Normal or abrupt completion of a statement. *)
Inductive Completion (A : Type) : Type :=
| Normal (a : A)
| Throw (message : string).
Arguments Normal {A} a.
Arguments Throw {A} message.

Section Extraction.

(** [new Date(s).getTime()] for the free-form dates of the page: the parse is
    implementation defined; an unparseable string gives an invalid date whose
    [getTime()] is [NaN].  Neither call throws. *)
Variable Date_parse : string -> JSNumber.

Definition Date_getTime (s : string) : Completion JSNumber :=
  Normal (Date_parse s).

Definition item_fallback_id (index : nat) : string :=
  ("item-" ++ JS.nat_to_string index)%string.

Definition excerpt_candidate (nextLine : string) : bool :=
  JS.truthy nextLine
  && negb (JS.includes nextLine "From ")
  && negb (match Regex.search Regex.date_pattern nextLine with Some _ => true | None => false end)
  && (20 <? String.length nextLine)%nat.

(** The nested [for] loops that look for the excerpt. *)
Fixpoint find_excerpt (title : string) (lines : list string) : string :=
  match lines with
  | [] => ""
  | line :: rest =>
      if String.eqb line title then
        match find excerpt_candidate rest with
        | Some nextLine => nextLine
        | None => ""
        end
      else find_excerpt title rest
  end.

(** The body of the [forEach] callback: the record pushed for one anchor, or
    [None] when the title filter rejects it. *)
Definition parse_anchor (now : Z) (linkElement : Anchor) (index : nat) : option NewsItem :=
  let title := JS.trim (textContent linkElement) in
  let url :=
    match getAttribute_href linkElement with
    | Some a => JS.or_else a (href linkElement)
    | None => href linkElement
    end in
  let url := normalize_url url in
  let textContent := container_textContent linkElement in
  let date :=
    match Regex.search Regex.date_pattern textContent with
    | Some dateMatch => dateMatch
    | None => ""
    end in
  let source :=
    if JS.includes textContent "From NOPD News" then "NOPD News"
    else if JS.includes textContent "From City of New Orleans" then "City of New Orleans"
    else "City of New Orleans" in
  let lines := filter JS.truthy (map JS.trim (JS.split JS.LF textContent)) in
  let excerpt := find_excerpt title lines in
  let id :=
    if JS.truthy url
    then JS.or_else (JS.pop (JS.split "/"%char url)) (item_fallback_id index)
    else item_fallback_id index in
  let timestamp :=
    if JS.truthy date then
      match Date_getTime date with
      | Normal t => t
      | Throw _ => Num (now - Z.of_nat index * 3600000)
      end
    else Num now in
  if JS.truthy title && (3 <? String.length title)%nat then
    Some (mkNewsItem id title (JS.or_else url "#") (JS.or_else date "Recent")
            source (JS.or_else excerpt "No description available") timestamp)
  else None.

(** [articleElements.forEach((linkElement, index) => ...)] *)
Fixpoint forEach_anchor (now : Z) (articleElements : list Anchor) (index : nat)
    (newsItems : list NewsItem) : list NewsItem :=
  match articleElements with
  | [] => newsItems
  | linkElement :: rest =>
      let newsItems :=
        match parse_anchor now linkElement index with
        | Some record => push newsItems record
        | None => newsItems
        end in
      forEach_anchor now rest (S index) newsItems
  end.

(** [parseNewsFromHTML] after the document has been parsed and queried. *)
Definition parse_anchors (now : Z) (articleElements : list Anchor) : list NewsItem :=
  forEach_anchor now articleElements 0%nat [].

(** [doc.querySelectorAll(...)] on the parsed markup. *)
Variable querySelectorAll : string -> list Anchor.

Definition parseNewsFromHTML (now : Z) (html : string) : list NewsItem :=
  parse_anchors now (querySelectorAll html).

End Extraction.

(* ================================================================== *)
(** ** Fetch gateway: [fetchRealNewsData] *)
(* ================================================================== *)

Module Net.

Definition hex_digit (n : nat) : ascii :=
  if (n <? 10)%nat then ascii_of_nat (48 + n) else ascii_of_nat (55 + n).

Definition unreserved (a : ascii) : bool :=
  JS.is_upper a || JS.is_lower a || JS.is_digit a
  || existsb (Ascii.eqb a) (list_ascii_of_string "-_.!~*'()").

(** [encodeURIComponent(s)] on ASCII text. *)
Fixpoint encodeURIComponent (s : string) : string :=
  match s with
  | EmptyString => EmptyString
  | String a s' =>
      if unreserved a then String a (encodeURIComponent s')
      else
        let n := nat_of_ascii a in
        String "%" (String (hex_digit (n / 16)) (String (hex_digit (n mod 16))
          (encodeURIComponent s')))
  end.

(** What one [fetch(proxyUrl, ...)] does: the promise rejects (network or CORS
    error), or it resolves to a response with a status, whose [text()] in turn
    resolves to the body or rejects (the connection breaks while the body is
    read). *)
Inductive FetchOutcome : Type :=
| Rejected (message : string)
| Responded (status : Z) (text : Completion string).

(** [response.ok] *)
Definition ok (status : Z) : bool := (200 <=? status) && (status <=? 299).

(** The network as the gateway sees it: the outcome of a GET of each URL. *)
Definition Network : Type := string -> FetchOutcome.

End Net.

Definition proxies : list string :=
  [ "https://corsproxy.io/?";
    "https://cors-anywhere.herokuapp.com/";
    "https://api.codetabs.com/v1/proxy?quest=" ].

Definition targetUrl : string := "https://nola.gov/next/news/".

Definition fetch_error_message : string :=
  "Unable to fetch news data. Please check your internet connection.".

Section Gateway.

Variable Date_parse : string -> JSNumber.
Variable querySelectorAll : string -> list Anchor.
Variable net : Net.Network.
Variable now : Z.

(** The [try] block of one loop iteration, for the relay [proxy].  The second
    component is the log of the request URLs handed to [fetch] so far. *)
Definition proxy_attempt (proxy : string) (requests : list string)
  : Completion (list NewsItem) * list string :=
  let proxyUrl := (proxy ++ Net.encodeURIComponent targetUrl)%string in
  let requests := push requests proxyUrl in
  match net proxyUrl with
  | Net.Rejected e => (Throw e, requests)
  | Net.Responded status text =>
      if negb (Net.ok status)
      then (Throw ("HTTP " ++ JS.nat_to_string (Z.to_nat status))%string, requests)
      else
        match text with
        | Throw e => (Throw e, requests)
        | Normal html => (Normal (parseNewsFromHTML Date_parse querySelectorAll now html), requests)
        end
  end.

(** The [for] loop from the iteration of [proxy] on; [later] are the relays
    after it, so that [i === proxies.length - 1] reads [later = []]. *)
Fixpoint proxy_loop (proxy : string) (later : list string) (requests : list string)
  : Completion (list NewsItem) * list string :=
  match proxy_attempt proxy requests with
  | (Normal newsItems, requests) => (Normal newsItems, requests)
  | (Throw proxyError, requests) =>
      match later with
      | [] => (Throw proxyError, requests)
      | next :: later' => proxy_loop next later' requests
      end
  end.

(** [fetchRealNewsData()]: the outer [catch] replaces whatever was thrown by
    one fixed error. *)
Definition fetchRealNewsData (requests : list string)
  : Completion (list NewsItem) * list string :=
  match proxies with
  | [] => (Throw fetch_error_message, requests)
  | first :: later =>
      match proxy_loop first later requests with
      | (Normal newsItems, requests) => (Normal newsItems, requests)
      | (Throw _, requests) => (Throw fetch_error_message, requests)
      end
  end.

End Gateway.

(* ================================================================== *)
(** ** Relevance scorer: [findKeywords], [calculateNewsworthiness] *)
(* ================================================================== *)

Record Newsworthiness : Type := mkNewsworthiness {
  score : Z;
  level : string
}.

Definition findKeywords (activeKeywords : list string) (item : NewsItem) : list string :=
  let text := JS.toLowerCase (title item ++ " " ++ excerpt item)%string in
  filter (fun keyword => JS.includes text (JS.toLowerCase keyword)) activeKeywords.

(** [Math.round]: the nearest integer, halves going up. *)
Definition Math_round (x : Q) : Z := Qfloor (x + (1 # 2)).

(** [(Date.now() - item.timestamp) / (1000 * 60 * 60)], [None] standing for
    [NaN].  The quotient is kept exact; the two comparisons made on it have
    the same outcome on the rounded double, the thresholds being integers far
    larger than the rounding error. *)
Definition hoursOld (now : Z) (item : NewsItem) : option Q :=
  match timestamp item with
  | Num t => Some (inject_Z (now - t) / inject_Z (1000 * 60 * 60))%Q
  | NaN => None
  end.

(** [x < bound], false when [x] is [NaN]. *)
Definition lt_num (x : option Q) (bound : Q) : bool :=
  match x with
  | Some q => if Qlt_le_dec q bound then true else false
  | None => false
  end.

Definition calculateNewsworthiness (now : Z) (item : NewsItem) (keywords : list string)
  : Newsworthiness :=
  let score : Q := 1%Q in
  let score := (score + inject_Z (Z.of_nat (List.length keywords)) * (3 # 2))%Q in
  let score := if JS.includes (source item) "Mayor" then (score + 1)%Q else score in
  let score := if JS.includes (source item) "City of New Orleans"
               then (score + (1 # 2))%Q else score in
  let title := JS.toLowerCase (title item) in
  let score := if JS.includes title "breaking" || JS.includes title "emergency"
               then (score + 2)%Q else score in
  let score := if JS.includes title "budget" || JS.includes title "council"
               then (score + 1)%Q else score in
  let hoursOld := hoursOld now item in
  let score := if lt_num hoursOld 6%Q then (score + 1)%Q
               else if lt_num hoursOld 24%Q then (score + (1 # 2))%Q
               else score in
  let score := Z.min 5 (Z.max 1 (Math_round score)) in
  let level := if 4 <=? score then "high" else if 3 <=? score then "medium" else "low" in
  mkNewsworthiness score level.

(* ================================================================== *)
(** ** The monitor object and the browser around it *)
(* ================================================================== *)

Definition mulN (a b : JSNumber) : JSNumber :=
  match a, b with
  | Num x, Num y => Num (x * y)
  | _, _ => NaN
  end.

Module ParseInt.

Definition digit_value (a : ascii) : option Z :=
  let n := Z.of_nat (nat_of_ascii a) in
  if JS.is_digit a then Some (n - 48)
  else if JS.is_lower a then Some (n - 87)
  else if JS.is_upper a then Some (n - 55)
  else None.

(** The longest prefix of digits of the radix, read as a number; [acc] is
    [None] until a digit has been read. *)
Fixpoint digits (radix : Z) (s : string) (acc : option Z) : option Z :=
  match s with
  | EmptyString => acc
  | String a s' =>
      match digit_value a with
      | Some d =>
          if d <? radix
          then digits radix s' (Some (match acc with Some v => v * radix + d | None => d end))
          else acc
      | None => acc
      end
  end.

(** [parseInt(s)] without a radix argument.  The value is the exact integer,
    as in JavaScript for numerals below 2^53; the rounding of longer numerals
    is not modelled. *)
Definition parseInt (s : string) : JSNumber :=
  let s := JS.trimStart s in
  let '(sign, s) :=
    match s with
    | String "-" r => (-1, r)
    | String "+" r => (1, r)
    | _ => (1, s)
    end in
  let parsed :=
    if JS.startsWith s "0x" || JS.startsWith s "0X"
    then digits 16 (JS.drop 2 s) None
    else digits 10 s None in
  match parsed with
  | Some v => Num (sign * v)
  | None => NaN
  end.

End ParseInt.

(** The entries of the history bucket. *)
Record HistoryEntry : Type := mkHistoryEntry {
  history_timestamp : Z;
  newsCount : nat;
  changesCount : nat
}.

(** localStorage holds JSON text under three keys; the model keeps the values
    that the text encodes, [None] for a key that is not set. *)
Module Stored.

Record Data : Type := mkData {
  lastCheck : Z;
  currentNews : list NewsItem;
  previousNews : list NewsItem
}.

Record AutoCheck : Type := mkAutoCheck {
  enabled : bool;
  interval : JSNumber
}.

Record LocalStorage : Type := mkLocalStorage {
  nola_monitor_data : option Data;
  nola_monitor_history : option (list HistoryEntry);
  nola_monitor_autocheck : option AutoCheck
}.

Definition set_data (v : option Data) (l : LocalStorage) : LocalStorage :=
  mkLocalStorage v (nola_monitor_history l) (nola_monitor_autocheck l).
Definition set_history (v : option (list HistoryEntry)) (l : LocalStorage) : LocalStorage :=
  mkLocalStorage (nola_monitor_data l) v (nola_monitor_autocheck l).
Definition set_autocheck (v : option AutoCheck) (l : LocalStorage) : LocalStorage :=
  mkLocalStorage (nola_monitor_data l) (nola_monitor_history l) v.

End Stored.

(** A repeating timer armed by [setInterval]; every timer of the monitor has
    the same callback, [checkForUpdates]. *)
Record Timer : Type := mkTimer {
  timer_id : positive;
  delay : JSNumber
}.

(** A [new Notification(title, {body, icon, tag})]. *)
Record Notification : Type := mkNotification {
  notification_title : string;
  body : string;
  icon : string;
  tag : string
}.

(** The browser facilities the monitor acts on. *)
Record Browser : Type := mkBrowser {
  localStorage : Stored.LocalStorage;
  timers : list Timer;            (* the armed repeating timers *)
  next_timer_id : positive;       (* the handle the next setInterval returns *)
  notifications : list Notification; (* raised so far, oldest first *)
  sounds : nat;                   (* notification sounds played so far *)
  status : option (string * bool);(* text and success flag set by updateStatus *)
  requests : list string          (* URLs handed to fetch so far *)
}.

(** The fields of [this]. *)
Record Monitor : Type := mkMonitor {
  activeKeywords : list string;
  lastCheck : option Z;
  previousNews : list NewsItem;
  currentNews : list NewsItem;
  autoCheckInterval : option positive;  (* null, or the handle of a timer *)
  autoCheckEnabled : bool;
  checkIntervalMinutes : JSNumber;
  notificationsEnabled : bool
}.

Record World : Type := mkWorld {
  this : Monitor;
  browser : Browser
}.

Definition set_localStorage (v : Stored.LocalStorage) (b : Browser) : Browser :=
  mkBrowser v (timers b) (next_timer_id b) (notifications b) (sounds b) (status b) (requests b).
Definition set_timers (v : list Timer) (n : positive) (b : Browser) : Browser :=
  mkBrowser (localStorage b) v n (notifications b) (sounds b) (status b) (requests b).
Definition set_notifications (v : list Notification) (snd : nat) (b : Browser) : Browser :=
  mkBrowser (localStorage b) (timers b) (next_timer_id b) v snd (status b) (requests b).
Definition set_status (v : option (string * bool)) (b : Browser) : Browser :=
  mkBrowser (localStorage b) (timers b) (next_timer_id b) (notifications b) (sounds b) v (requests b).
Definition set_requests (v : list string) (b : Browser) : Browser :=
  mkBrowser (localStorage b) (timers b) (next_timer_id b) (notifications b) (sounds b) (status b) v.

Definition set_lastCheck (v : option Z) (m : Monitor) : Monitor :=
  mkMonitor (activeKeywords m) v (previousNews m) (currentNews m) (autoCheckInterval m)
    (autoCheckEnabled m) (checkIntervalMinutes m) (notificationsEnabled m).
Definition set_previousNews (v : list NewsItem) (m : Monitor) : Monitor :=
  mkMonitor (activeKeywords m) (lastCheck m) v (currentNews m) (autoCheckInterval m)
    (autoCheckEnabled m) (checkIntervalMinutes m) (notificationsEnabled m).
Definition set_currentNews (v : list NewsItem) (m : Monitor) : Monitor :=
  mkMonitor (activeKeywords m) (lastCheck m) (previousNews m) v (autoCheckInterval m)
    (autoCheckEnabled m) (checkIntervalMinutes m) (notificationsEnabled m).
Definition set_autoCheckInterval (v : option positive) (m : Monitor) : Monitor :=
  mkMonitor (activeKeywords m) (lastCheck m) (previousNews m) (currentNews m) v
    (autoCheckEnabled m) (checkIntervalMinutes m) (notificationsEnabled m).
Definition set_checkIntervalMinutes (v : JSNumber) (m : Monitor) : Monitor :=
  mkMonitor (activeKeywords m) (lastCheck m) (previousNews m) (currentNews m)
    (autoCheckInterval m) (autoCheckEnabled m) v (notificationsEnabled m).

(** The state the constructor leaves, before [init] reads localStorage, in a
    browser with nothing stored and no timer armed. *)
Definition keywords : list string :=
  ["budget"; "police"; "housing"; "development"; "mayor"; "council"].

Definition new_monitor : Monitor :=
  mkMonitor keywords None [] [] None false (Num 15) false.

Definition fresh_browser : Browser :=
  mkBrowser (Stored.mkLocalStorage None None None) [] 1%positive [] 0%nat None [].

Definition initial_world : World := mkWorld new_monitor fresh_browser.

(* ================================================================== *)
(** ** Scheduler: [startAutoCheck], [stopAutoCheck], [toggleAutoCheck],
       [setCheckInterval] *)
(* ================================================================== *)

(** [setInterval(callback, delay)]: arms a timer under a fresh handle, which
    is a positive integer (and so truthy), and returns the handle. *)
Definition setInterval (intervalMs : JSNumber) (b : Browser) : positive * Browser :=
  let handle := next_timer_id b in
  (handle, set_timers (push (timers b) (mkTimer handle intervalMs)) (Pos.succ handle) b).

(** [clearInterval(handle)]: disarms the timer of that handle, if any. *)
Definition clearInterval (handle : positive) (b : Browser) : Browser :=
  set_timers (filter (fun t => negb (Pos.eqb (timer_id t) handle)) (timers b))
    (next_timer_id b) b.

Definition save_autocheck (enabled : bool) (w : World) : World :=
  mkWorld (this w)
    (set_localStorage
       (Stored.set_autocheck
          (Some (Stored.mkAutoCheck enabled (checkIntervalMinutes (this w))))
          (localStorage (browser w)))
       (browser w)).

Definition startAutoCheck (w : World) : World :=
  let b :=
    match autoCheckInterval (this w) with
    | Some handle => clearInterval handle (browser w)
    | None => browser w
    end in
  let intervalMs := mulN (mulN (checkIntervalMinutes (this w)) (Num 60)) (Num 1000) in
  let '(handle, b) := setInterval intervalMs b in
  let w := mkWorld (set_autoCheckInterval (Some handle) (this w)) b in
  save_autocheck true w.

Definition stopAutoCheck (w : World) : World :=
  let w :=
    match autoCheckInterval (this w) with
    | Some handle =>
        mkWorld (set_autoCheckInterval None (this w)) (clearInterval handle (browser w))
    | None => w
    end in
  save_autocheck false w.

(** The button and status texts that [toggleAutoCheck] and [setCheckInterval]
    also write are page decoration and are not part of the model. *)
Definition toggleAutoCheck (w : World) : World :=
  if autoCheckEnabled (this w) then stopAutoCheck w else startAutoCheck w.

Definition setCheckInterval (minutes : string) (w : World) : World :=
  let w := mkWorld (set_checkIntervalMinutes (ParseInt.parseInt minutes) (this w)) (browser w) in
  if autoCheckEnabled (this w) then startAutoCheck (stopAutoCheck w) else w.

(* ================================================================== *)
(** ** The cycle: [checkForUpdates] and what it calls *)
(* ================================================================== *)

Definition single_notification (item : NewsItem) : Notification :=
  mkNotification "New NOLA News Item"
    (title item ++ String JS.LF "From: " ++ source item)%string
    "/favicon.ico" "nola-news-single".

Definition multiple_notification (count : nat) : Notification :=
  mkNotification "Multiple New NOLA News Items"
    (JS.nat_to_string count ++ " new items detected. Check the monitor for details.")%string
    "/favicon.ico" "nola-news-multiple".

(** [sendNotifications(changes)].  The titles are given without their leading
    pictograph. *)
Definition sendNotifications (changes : list Change) (w : World) : World :=
  if negb (notificationsEnabled (this w)) || (List.length changes =? 0)%nat then w
  else
    let newItems := filter (fun change => ChangeType_eqb (type change) NEW) changes in
    match newItems with
    | [] => w
    | [first] =>
        let b := browser w in
        mkWorld (this w)
          (set_notifications (push (notifications b) (single_notification (item first)))
             (S (sounds b)) b)
    | _ =>
        let b := browser w in
        mkWorld (this w)
          (set_notifications
             (push (notifications b) (multiple_notification (List.length newItems)))
             (S (sounds b)) b)
    end.

(** [saveToStorage()] *)
Definition saveToStorage (now : Z) (w : World) : World :=
  let data := Stored.mkData now (currentNews (this w)) (previousNews (this w)) in
  mkWorld (set_lastCheck (Some (Stored.lastCheck data)) (this w))
    (set_localStorage (Stored.set_data (Some data) (localStorage (browser w))) (browser w)).

(** [getHistory()] *)
Definition getHistory (w : World) : list HistoryEntry :=
  match Stored.nola_monitor_history (localStorage (browser w)) with
  | Some history => history
  | None => []
  end.

(** [addToHistory(newsCount, changesCount)]: [unshift], then [splice(10)]. *)
Definition addToHistory (now : Z) (newsCount changesCount : nat) (w : World) : World :=
  let history := getHistory w in
  let history := mkHistoryEntry now newsCount changesCount :: history in
  let history := if (10 <? List.length history)%nat then firstn 10 history else history in
  mkWorld (this w)
    (set_localStorage (Stored.set_history (Some history) (localStorage (browser w)))
       (browser w)).

(** [updateStatus(message, success)] *)
Definition updateStatus (message : string) (success : bool) (w : World) : World :=
  mkWorld (this w) (set_status (Some (message, success)) (browser w)).

Section Cycle.

Variable Date_parse : string -> JSNumber.
Variable querySelectorAll : string -> list Anchor.
Variable net : Net.Network.
Variable now : Z.

(** [checkForUpdates()].  Rendering ([displayNews], [displayChanges],
    [updateLastCheckedDisplay], the button and the spinner) only writes to the
    page and is left out. *)
Definition checkForUpdates (w : World) : World :=
  match fetchRealNewsData Date_parse querySelectorAll net now (requests (browser w)) with
  | (Normal freshData, requests) =>
      let w := mkWorld (this w) (set_requests requests (browser w)) in
      let w := mkWorld (set_previousNews (currentNews (this w)) (this w)) (browser w) in
      let w := mkWorld (set_currentNews freshData (this w)) (browser w) in
      let changes := detectChanges (previousNews (this w)) (currentNews (this w)) in
      let w := saveToStorage now w in
      let w := addToHistory now (List.length freshData) (List.length changes) w in
      let w := if (0 <? List.length changes)%nat then sendNotifications changes w else w in
      updateStatus
        ("Found " ++ JS.nat_to_string (List.length freshData) ++ " news items, "
         ++ JS.nat_to_string (List.length changes) ++ " changes detected")%string true w
  | (Throw message, requests) =>
      let w := mkWorld (this w) (set_requests requests (browser w)) in
      updateStatus ("Error: " ++ message)%string false w
  end.

End Cycle.

(* ================================================================== *)
(** * Properties of the monitor *)
(* ================================================================== *)

(* ------------------------------------------------------------------ *)
(** *** Change detector *)
(* ------------------------------------------------------------------ *)

(** Specification side: the records of [xs] whose id occurs in no record of
    [ys], in the order of [xs]. *)
Definition absent_from (ys : list NewsItem) (x : NewsItem) : bool :=
  if in_dec string_dec (id x) (map id ys) then false else true.

Definition only_in (xs ys : list NewsItem) : list NewsItem :=
  filter (absent_from ys) xs.

Definition spec_detect (P C : list NewsItem) : list Change :=
  map new_change (only_in C P) ++ map removed_change (only_in P C).

Lemma some_id_In (x : NewsItem) (ys : list NewsItem) :
  some (fun y => String.eqb (id y) (id x)) ys = true <-> In (id x) (map id ys).
Proof.
  unfold some. rewrite existsb_exists, in_map_iff. split.
  - intros [y [Hy He]]. apply String.eqb_eq in He. now exists y.
  - intros [y [He Hy]]. exists y. split; [assumption|]. now apply String.eqb_eq.
Qed.

Lemma negb_some_absent (x : NewsItem) (ys : list NewsItem) :
  negb (some (fun y => String.eqb (id y) (id x)) ys) = absent_from ys x.
Proof.
  unfold absent_from. destruct (in_dec string_dec (id x) (map id ys)) as [Hin|Hnin].
  - apply some_id_In in Hin. now rewrite Hin.
  - destruct (some (fun y => String.eqb (id y) (id x)) ys) eqn:E; [|reflexivity].
    apply some_id_In in E. contradiction.
Qed.

(** A [forEach] that conditionally pushes is a filter followed by a map,
    appended to what was accumulated before. *)
Lemma forEach_push_filter {A B} (keep : A -> bool) (mk : A -> B) (xs : list A) :
  forall acc,
    fold_left (fun acc x => if keep x then push acc (mk x) else acc) xs acc
    = acc ++ map mk (filter keep xs).
Proof.
  induction xs as [|x xs IH]; intros acc; simpl.
  - now rewrite app_nil_r.
  - rewrite IH. destruct (keep x); simpl; [|reflexivity].
    unfold push. now rewrite <- app_assoc.
Qed.

Lemma detectChanges_spec (P C : list NewsItem) :
  detectChanges P C = spec_detect P C.
Proof.
  unfold detectChanges, spec_detect, only_in.
  rewrite !forEach_push_filter. simpl.
  f_equal; f_equal; apply filter_ext; intros x; apply negb_some_absent.
Qed.

Lemma only_in_self (P : list NewsItem) : only_in P P = [].
Proof.
  unfold only_in.
  assert (H : forall Q, incl Q P -> filter (absent_from P) Q = []).
  { induction Q as [|q Q IH]; intros Hincl; [reflexivity|]. simpl.
    unfold absent_from at 1.
    destruct (in_dec string_dec (id q) (map id P)) as [_|Hn].
    - apply IH. intros y Hy. apply Hincl. now right.
    - exfalso. apply Hn, in_map, Hincl. now left. }
  apply H, incl_refl.
Qed.

Lemma only_in_nil (C : list NewsItem) : only_in C [] = C.
Proof.
  unfold only_in. induction C as [|c C IH]; [reflexivity|].
  simpl. now rewrite IH.
Qed.

(** Specification side: the event of a given type for a record, every field
    written out. *)
Definition expected_event (t : ChangeType) (r : NewsItem) : Change :=
  {| type := t;
     item := r;
     description :=
       ((match t with NEW => "New article: " | REMOVED => "Removed article: " end)
        ++ JS.dquote ++ title r ++ JS.dquote)%string |}.

Lemma map_constant {A B} (b : B) (l : list A) :
  map (fun _ => b) l = repeat b (List.length l).
Proof. induction l as [|a l IH]; simpl; [reflexivity|]. now rewrite IH. Qed.

(** C1.  For all record sequences [P] (previous) and [C] (current),
    [detectChanges] returns one event of type NEW (added) for each record of
    [C] whose id occurs in no record of [P], carrying that record, in the
    order of [C], followed by one event of type REMOVED for each record of [P]
    whose id occurs in no record of [C], carrying that record, in the order of
    [P], and nothing else.  Comparing a sequence with itself gives no event,
    two empty sequences give no event, and an empty previous sequence gives
    [|C|] events, all of them NEW, carrying the records of [C] in order. *)
Theorem detectChanges_added_then_removed (P C : list NewsItem) :
  detectChanges P C
    = map (expected_event NEW) (only_in C P) ++ map (expected_event REMOVED) (only_in P C)
  /\ map type (detectChanges P C)
     = repeat NEW (List.length (only_in C P)) ++ repeat REMOVED (List.length (only_in P C))
  /\ map item (detectChanges P C) = only_in C P ++ only_in P C
  /\ (forall x, In x (only_in C P) <-> In x C /\ ~ In (id x) (map id P))
  /\ (forall x, In x (only_in P C) <-> In x P /\ ~ In (id x) (map id C))
  /\ detectChanges P P = []
  /\ detectChanges [] [] = []
  /\ map item (detectChanges [] C) = C
  /\ List.length (detectChanges [] C) = List.length C
  /\ Forall (fun change => type change = NEW) (detectChanges [] C).
Proof.
  assert (Hin : forall xs ys x,
             In x (only_in xs ys) <-> In x xs /\ ~ In (id x) (map id ys)).
  { intros xs ys x. unfold only_in. rewrite filter_In. unfold absent_from.
    destruct (in_dec string_dec (id x) (map id ys)); intuition congruence. }
  assert (Hall : forall P' C',
             detectChanges P' C'
             = map (expected_event NEW) (only_in C' P')
               ++ map (expected_event REMOVED) (only_in P' C')).
  { intros P' C'. rewrite detectChanges_spec. unfold spec_detect.
    f_equal; apply map_ext; intros r; reflexivity. }
  assert (Htype : forall P' C',
             map type (detectChanges P' C')
             = repeat NEW (List.length (only_in C' P'))
               ++ repeat REMOVED (List.length (only_in P' C'))).
  { intros P' C'. rewrite Hall, map_app, !map_map. cbn [type expected_event].
    now rewrite !map_constant. }
  assert (Hitem : forall P' C',
             map item (detectChanges P' C') = only_in C' P' ++ only_in P' C').
  { intros P' C'. rewrite Hall, map_app, !map_map. cbn [item expected_event].
    now rewrite !map_id. }
  split; [apply Hall|]. split; [apply Htype|]. split; [apply Hitem|].
  split; [apply Hin|]. split; [apply Hin|].
  split; [rewrite Hall; now rewrite only_in_self|].
  split; [reflexivity|].
  assert (HnilC : only_in C [] = C) by apply only_in_nil.
  split; [rewrite Hitem, HnilC; apply app_nil_r|].
  split.
  - rewrite <- (length_map item), Hitem, HnilC. simpl. now rewrite app_nil_r.
  - apply Forall_forall. intros change Hc.
    assert (Ht : In (type change) (map type (detectChanges [] C))) by now apply in_map.
    rewrite Htype in Ht. simpl in Ht. rewrite app_nil_r in Ht.
    now apply repeat_spec in Ht.
Qed.

(* ------------------------------------------------------------------ *)
(** *** Relevance scorer *)
(* ------------------------------------------------------------------ *)

Definition SIX_HOURS : Z := 6 * 3600000.
Definition ONE_DAY : Z := 24 * 3600000.

Definition bonus (applies : bool) (points : Q) : Q := if applies then points else 0%Q.

(** Specification side: the recency bonus from the age in milliseconds. *)
Definition recency_bonus (now : Z) (t : JSNumber) : Q :=
  match t with
  | Num t =>
      if now - t <? SIX_HOURS then 1%Q
      else if now - t <? ONE_DAY then (1 # 2)%Q
      else 0%Q
  | NaN => 0%Q
  end.

(** Specification side: the part of the raw score that does not depend on the
    matched keywords. *)
Definition spec_item_points (now : Z) (item : NewsItem) : Q :=
  let lowered := JS.toLowerCase (title item) in
  (bonus (JS.includes (source item) "Mayor") 1
   + bonus (JS.includes (source item) "City of New Orleans") (1 # 2)
   + bonus (JS.includes lowered "breaking" || JS.includes lowered "emergency") 2
   + bonus (JS.includes lowered "budget" || JS.includes lowered "council") 1
   + recency_bonus now (timestamp item))%Q.

(** Specification side: the raw score for [k] matched keywords. *)
Definition spec_raw_score (now : Z) (item : NewsItem) (k : nat) : Q :=
  (1 + (3 # 2) * inject_Z (Z.of_nat k) + spec_item_points now item)%Q.

Definition clamp (lo hi x : Z) : Z := Z.min hi (Z.max lo x).

Definition spec_score (now : Z) (item : NewsItem) (k : nat) : Z :=
  clamp 1 5 (Math_round (spec_raw_score now item k)).

Lemma lt_num_hours (now t : Z) (h : Z) :
  lt_num (Some (inject_Z (now - t) / inject_Z (1000 * 60 * 60))%Q) (inject_Z h)
  = (now - t <? h * 3600000).
Proof.
  unfold lt_num.
  destruct (Qlt_le_dec _ _) as [Hlt|Hle]; symmetry.
  - apply Z.ltb_lt. unfold Qlt, Qdiv, Qmult, Qinv, inject_Z in Hlt. simpl in Hlt. lia.
  - apply Z.ltb_ge. unfold Qle, Qdiv, Qmult, Qinv, inject_Z in Hle. simpl in Hle. lia.
Qed.

Lemma recency_code_spec (now : Z) (item : NewsItem) (x : Q) :
  ((if lt_num (hoursOld now item) 6 then x + 1
    else if lt_num (hoursOld now item) 24 then x + (1 # 2) else x)
   == x + recency_bonus now (timestamp item))%Q.
Proof.
  unfold hoursOld, recency_bonus. destruct (timestamp item) as [t|].
  - change 6%Q with (inject_Z 6). change 24%Q with (inject_Z 24).
    rewrite !lt_num_hours. unfold SIX_HOURS, ONE_DAY.
    destruct (now - t <? 6 * 3600000); [reflexivity|].
    destruct (now - t <? 24 * 3600000); [reflexivity|]. ring.
  - simpl. ring.
Qed.

Lemma calculateNewsworthiness_score (now : Z) (item : NewsItem) (kws : list string) :
  score (calculateNewsworthiness now item kws) = spec_score now item (List.length kws).
Proof.
  unfold calculateNewsworthiness, spec_score, clamp, Math_round. cbn [score].
  do 2 f_equal. apply Qfloor_comp. apply Qplus_comp; [|reflexivity].
  rewrite recency_code_spec.
  unfold spec_raw_score, spec_item_points, bonus.
  destruct (JS.includes (source item) "Mayor");
  destruct (JS.includes (source item) "City of New Orleans");
  destruct (JS.includes (JS.toLowerCase (title item)) "breaking"
            || JS.includes (JS.toLowerCase (title item)) "emergency");
  destruct (JS.includes (JS.toLowerCase (title item)) "budget"
            || JS.includes (JS.toLowerCase (title item)) "council");
  ring.
Qed.

Lemma spec_score_monotone (now : Z) (item : NewsItem) (k k' : nat) :
  (k <= k')%nat -> spec_score now item k <= spec_score now item k'.
Proof.
  intros Hk. unfold spec_score, clamp, Math_round.
  apply Z.min_le_compat_l, Z.max_le_compat_l, Qfloor_resp_le.
  apply Qplus_le_l. unfold spec_raw_score. apply Qplus_le_l, Qplus_le_r.
  apply Qmult_le_l; [reflexivity|].
  rewrite <- Zle_Qle. lia.
Qed.

(** [Math.round] gives the nearest integer, a half going up. *)
Lemma Math_round_nearest (x : Q) :
  (inject_Z (Math_round x) - (1 # 2) <= x /\ x < inject_Z (Math_round x) + (1 # 2))%Q.
Proof.
  unfold Math_round. split.
  - apply Qplus_le_l with (z := (1 # 2)%Q).
    setoid_replace (inject_Z (Qfloor (x + (1 # 2))) - (1 # 2) + (1 # 2))%Q
      with (inject_Z (Qfloor (x + (1 # 2)))) by ring.
    apply Qfloor_le.
  - apply Qplus_lt_l with (z := (1 # 2)%Q).
    setoid_replace (inject_Z (Qfloor (x + (1 # 2))) + (1 # 2) + (1 # 2))%Q
      with (inject_Z (Qfloor (x + (1 # 2)) + 1)).
    + apply Qlt_floor.
    + rewrite inject_Z_plus. ring.
Qed.

(** C8.  For every record and matched-keyword list of length [k], the score
    is the rounding of 1 + 1.5 k + 1 (source contains "Mayor") + 0.5 (source
    contains "City of New Orleans") + 2 (lower-cased title contains "breaking"
    or "emergency") + 1 (it contains "budget" or "council") + 1 (age below 6
    hours), else 0.5 (age below 24 hours), clamped to [1,5]; the rounding is to
    the nearest integer; the level is "high" iff the score is at least 4,
    "medium" iff it is 3, "low" otherwise; the score is an integer in [1,5]
    and does not decrease when the number of matched keywords grows. *)
Theorem calculateNewsworthiness_formula
    (now : Z) (item : NewsItem) (kws : list string) :
  let r := calculateNewsworthiness now item kws in
  let raw := spec_raw_score now item (List.length kws) in
  score r = Z.min 5 (Z.max 1 (Math_round raw))
  /\ (inject_Z (Math_round raw) - (1 # 2) <= raw < inject_Z (Math_round raw) + (1 # 2))%Q
  /\ (level r = "high" <-> 4 <= score r)
  /\ (level r = "medium" <-> score r = 3)
  /\ (level r = "low" <-> score r <= 2)
  /\ 1 <= score r <= 5
  /\ (forall kws', (List.length kws <= List.length kws')%nat ->
        score r <= score (calculateNewsworthiness now item kws')).
Proof.
  intros r raw.
  assert (Hs : score r = Z.min 5 (Z.max 1 (Math_round raw)))
    by apply calculateNewsworthiness_score.
  assert (Hl : level r = if 4 <=? score r then "high"
                         else if 3 <=? score r then "medium" else "low")
    by reflexivity.
  split; [exact Hs|]. split; [apply Math_round_nearest|].
  repeat split.
  - rewrite Hl. destruct (4 <=? score r) eqn:E4; [intros _; now apply Z.leb_le|].
    destruct (3 <=? score r); discriminate.
  - rewrite Hl. intros H4. apply Z.leb_le in H4. now rewrite H4.
  - rewrite Hl. destruct (4 <=? score r) eqn:E4; [discriminate|].
    destruct (3 <=? score r) eqn:E3; [|discriminate].
    intros _. apply Z.leb_gt in E4. apply Z.leb_le in E3. lia.
  - rewrite Hl. intros H3. now rewrite H3.
  - rewrite Hl. destruct (4 <=? score r) eqn:E4; [discriminate|].
    destruct (3 <=? score r) eqn:E3; [discriminate|].
    intros _. apply Z.leb_gt in E3. lia.
  - rewrite Hl. intros H2.
    destruct (4 <=? score r) eqn:E4; [apply Z.leb_le in E4; lia|].
    destruct (3 <=? score r) eqn:E3; [apply Z.leb_le in E3; lia|reflexivity].
  - rewrite Hs. lia.
  - rewrite Hs. lia.
  - intros kws' Hk. unfold r. rewrite !calculateNewsworthiness_score.
    now apply spec_score_monotone.
Qed.

(* ------------------------------------------------------------------ *)
(** *** Fetch gateway *)
(* ------------------------------------------------------------------ *)

(** The URL requested from a relay. *)
Definition request_url (proxy : string) : string :=
  (proxy ++ Net.encodeURIComponent targetUrl)%string.

(** A relay fails when the request or the reading of the body ends in a
    network error, or when the status is not a success status. *)
Definition relay_fails (o : Net.FetchOutcome) : bool :=
  match o with
  | Net.Rejected _ => true
  | Net.Responded status text =>
      negb (Net.ok status) || match text with Throw _ => true | Normal _ => false end
  end.

Section GatewayFacts.

Variable Date_parse : string -> JSNumber.
Variable querySelectorAll : string -> list Anchor.
Variable net : Net.Network.
Variable now : Z.

Let fails (proxy : string) : Prop := relay_fails (net (request_url proxy)) = true.
Let attempt := proxy_attempt Date_parse querySelectorAll net now.
Let loop := proxy_loop Date_parse querySelectorAll net now.
Let parse := parseNewsFromHTML Date_parse querySelectorAll now.

Lemma proxy_attempt_fails (proxy : string) (requests : list string) :
  fails proxy ->
  exists e, attempt proxy requests = (Throw e, requests ++ [request_url proxy]).
Proof.
  unfold fails, attempt, proxy_attempt, relay_fails. fold (request_url proxy).
  destruct (net (request_url proxy)) as [e|status text].
  - intros _. now exists e.
  - destruct (negb (Net.ok status)); [intros _; eauto|].
    destruct text as [html|e]; [discriminate|]. intros _. now exists e.
Qed.

Lemma proxy_attempt_succeeds (proxy : string) (requests : list string) status html :
  net (request_url proxy) = Net.Responded status (Normal html) ->
  Net.ok status = true ->
  attempt proxy requests = (Normal (parse html), requests ++ [request_url proxy]).
Proof.
  intros Hnet Hok. unfold attempt, proxy_attempt. fold (request_url proxy).
  now rewrite Hnet, Hok.
Qed.

Lemma relay_not_failing (proxy : string) :
  ~ fails proxy ->
  exists status html,
    net (request_url proxy) = Net.Responded status (Normal html) /\ Net.ok status = true.
Proof.
  unfold fails, relay_fails. destruct (net (request_url proxy)) as [e|status text].
  - intros H. now contradiction H.
  - destruct (Net.ok status) eqn:Hok; simpl.
    + destruct text as [html|e]; [intros _; now exists status, html|].
      intros H. now contradiction H.
    + intros H. now contradiction H.
Qed.

(** The loop over the relays that all fail: every relay is requested, in
    order, and the error of the last one is thrown. *)
Lemma proxy_loop_exhausted (later : list string) :
  forall proxy requests,
    Forall fails (proxy :: later) ->
    exists e,
      loop proxy later requests
      = (Throw e, requests ++ map request_url (proxy :: later)).
Proof.
  induction later as [|next later IH]; intros proxy requests Hall;
    inversion Hall as [|? ? Hp Hrest]; subst;
    destruct (proxy_attempt_fails proxy requests Hp) as [e He];
    unfold loop in *; simpl; fold attempt; rewrite He.
  - now exists e.
  - destruct (IH next (requests ++ [request_url proxy]) Hrest) as [e' He'].
    exists e'. rewrite He'. simpl. now rewrite <- app_assoc.
Qed.

(** The loop stops at the first relay that does not fail. *)
Lemma proxy_loop_first_success (failed : list string) :
  forall proxy later requests p rest status html,
    proxy :: later = failed ++ p :: rest ->
    Forall fails failed ->
    net (request_url p) = Net.Responded status (Normal html) ->
    Net.ok status = true ->
    loop proxy later requests
    = (Normal (parse html), requests ++ map request_url (failed ++ [p])).
Proof.
  induction failed as [|f failed IH];
    intros proxy later requests p rest status html Heq Hfail Hnet Hok;
    simpl in Heq; injection Heq as -> ->.
  - unfold loop. destruct rest; simpl; fold attempt;
      now rewrite (proxy_attempt_succeeds _ _ _ _ Hnet Hok).
  - inversion Hfail as [|? ? Hf Hrest]; subst.
    destruct (proxy_attempt_fails f requests Hf) as [e He].
    destruct failed as [|g failed]; unfold loop; simpl; fold attempt; rewrite He;
      fold loop.
    + rewrite (IH p rest _ p rest status html eq_refl Hrest Hnet Hok).
      simpl. now rewrite <- app_assoc.
    + rewrite (IH g (failed ++ p :: rest) _ p rest status html eq_refl Hrest Hnet Hok).
      simpl. now rewrite <- app_assoc.
Qed.

(** Either every relay of a list fails, or the list splits at its first relay
    that does not. *)
Lemma first_success_split (ps : list string) :
  Forall fails ps \/
  exists failed p rest, ps = failed ++ p :: rest /\ Forall fails failed /\ ~ fails p.
Proof.
  induction ps as [|q ps IH]; [left; constructor|].
  destruct (bool_dec (relay_fails (net (request_url q))) true) as [Hq|Hq].
  - destruct IH as [Hall|[failed [p [rest [-> [Hf Hp]]]]]].
    + left. now constructor.
    + right. exists (q :: failed), p, rest. repeat split; [now constructor|exact Hp].
  - right. exists [], q, ps. repeat split; [constructor|exact Hq].
Qed.

(** C2, as the code has it.  The gateway requests its relays in their fixed
    order.  A relay fails when its request ends in a network error, when its
    status is not a success status, or when its body cannot be read.  When
    the relays before [p] all fail and [p] answers with a success status and
    a body that is read, the gateway returns the records parsed from that
    body, having requested exactly the relays up to [p] and none after it.
    When every relay fails, every relay has been requested and the gateway
    throws its one fixed error; and whenever the gateway throws, it throws
    that same error and every relay has failed, so no relay's own error
    reaches the caller. *)
Theorem fetchRealNewsData_first_success_or_exhausted (requests : list string) :
  let fetched := fetchRealNewsData Date_parse querySelectorAll net now requests in
  (forall failed p rest status html,
      proxies = failed ++ p :: rest ->
      Forall (fun q => relay_fails (net (request_url q)) = true) failed ->
      net (request_url p) = Net.Responded status (Normal html) ->
      Net.ok status = true ->
      fetched = (Normal (parseNewsFromHTML Date_parse querySelectorAll now html),
                 requests ++ map request_url (failed ++ [p])))
  /\ (Forall (fun q => relay_fails (net (request_url q)) = true) proxies ->
      fetched = (Throw fetch_error_message, requests ++ map request_url proxies))
  /\ (forall message,
      fst fetched = Throw message ->
      message = fetch_error_message
      /\ Forall (fun q => relay_fails (net (request_url q)) = true) proxies).
Proof.
  intros fetched.
  assert (Hok : forall failed p rest status html,
      proxies = failed ++ p :: rest -> Forall fails failed ->
      net (request_url p) = Net.Responded status (Normal html) ->
      Net.ok status = true ->
      fetched = (Normal (parse html), requests ++ map request_url (failed ++ [p]))).
  { intros failed p rest status html Heq Hf Hnet Hst.
    unfold fetched, fetchRealNewsData. unfold proxies in Heq |- *.
    fold loop. now rewrite (proxy_loop_first_success failed _ _ _ p rest status html Heq Hf Hnet Hst). }
  split; [exact Hok|]. split.
  - intros Hall. unfold fetched, fetchRealNewsData. unfold proxies in Hall |- *.
    fold loop. destruct (proxy_loop_exhausted _ _ requests Hall) as [e He].
    now rewrite He.
  - intros message Hthrow.
    destruct (first_success_split proxies) as [Hall|[failed [p [rest [Heq [Hf Hp]]]]]].
    + split; [|exact Hall].
      unfold fetched, fetchRealNewsData in Hthrow. unfold proxies in Hall, Hthrow.
      fold loop in Hthrow. destruct (proxy_loop_exhausted _ _ requests Hall) as [e He].
      rewrite He in Hthrow. simpl in Hthrow. congruence.
    + destruct (relay_not_failing p Hp) as [status [html [Hnet Hst]]].
      rewrite (Hok failed p rest status html Heq Hf Hnet Hst) in Hthrow.
      discriminate.
Qed.

End GatewayFacts.

(** A network on which the first relay cannot be reached, the second answers
    with an error status, and the third delivers a page. *)
Definition two_relays_down : Net.Network := fun requested =>
  if String.eqb requested (request_url "https://api.codetabs.com/v1/proxy?quest=")
  then Net.Responded 200 (Normal "<html><body>No news today</body></html>")
  else if String.eqb requested (request_url "https://cors-anywhere.herokuapp.com/")
  then Net.Responded 429 (Normal "Too Many Requests")
  else Net.Rejected "Failed to fetch".

(** A network on which no relay can be reached. *)
Definition all_relays_down : Net.Network := fun _ => Net.Rejected "Failed to fetch".

(** A page on which the selector finds nothing. *)
Definition no_anchors : string -> list Anchor := fun _ => [].

Definition no_dates : string -> JSNumber := fun _ => NaN.

Lemma fetchRealNewsData_fallback_witness :
  fetchRealNewsData no_dates no_anchors two_relays_down 0 []
  = (Normal (parseNewsFromHTML no_dates no_anchors 0
               "<html><body>No news today</body></html>"),
     [] ++ map request_url
             (["https://corsproxy.io/?"; "https://cors-anywhere.herokuapp.com/"]
              ++ ["https://api.codetabs.com/v1/proxy?quest="]))
  /\ fetchRealNewsData no_dates no_anchors all_relays_down 0 []
     = (Throw fetch_error_message, [] ++ map request_url proxies).
Proof.
  split.
  - apply (proj1 (fetchRealNewsData_first_success_or_exhausted
                    no_dates no_anchors two_relays_down 0 []))
      with (rest := []) (status := 200).
    + reflexivity.
    + repeat constructor.
    + reflexivity.
    + reflexivity.
  - apply (proj1 (proj2 (fetchRealNewsData_first_success_or_exhausted
                           no_dates no_anchors all_relays_down 0 []))).
    repeat constructor.
Defined.

(** A network on which the first relay answers with status 200 and then the
    connection breaks while the body is read, and the second relay delivers a
    page. *)
Definition body_lost : Net.Network := fun requested =>
  if String.eqb requested (request_url "https://corsproxy.io/?")
  then Net.Responded 200 (Throw "network error")
  else if String.eqb requested (request_url "https://cors-anywhere.herokuapp.com/")
  then Net.Responded 200 (Normal "<html><body>No news today</body></html>")
  else Net.Rejected "Failed to fetch".

(** C2 as stated fails.  The response of the first relay has a success
    status, yet the gateway goes on to request the second relay and returns
    what the second relay's body holds: a response with a success status
    whose body cannot be read counts as a failure of its relay. *)
Lemma fetchRealNewsData_success_status_not_enough :
  (exists status failure,
      body_lost (request_url "https://corsproxy.io/?") = Net.Responded status (Throw failure)
      /\ Net.ok status = true)
  /\ fetchRealNewsData no_dates no_anchors body_lost 0 []
     = (Normal (parseNewsFromHTML no_dates no_anchors 0
                  "<html><body>No news today</body></html>"),
        [request_url "https://corsproxy.io/?";
         request_url "https://cors-anywhere.herokuapp.com/"])
  /\ snd (fetchRealNewsData no_dates no_anchors body_lost 0 [])
     <> [request_url "https://corsproxy.io/?"].
Proof.
  split; [exists 200, "network error"; now split|].
  split; [reflexivity|discriminate].
Qed.

(* ------------------------------------------------------------------ *)
(** *** The cycle *)
(* ------------------------------------------------------------------ *)

Definition is_new (change : Change) : bool := ChangeType_eqb (type change) NEW.

(** Specification side: the notifications a change list calls for. *)
Definition expected_notifications (enabled : bool) (changes : list Change)
  : list Notification :=
  let added := filter is_new changes in
  if enabled && negb (List.length added =? 0)%nat then
    [ if (List.length added =? 1)%nat
      then single_notification (item (hd (new_change (mkNewsItem "" "" "" "" "" "" NaN)) added))
      else multiple_notification (List.length added) ]
  else [].

Lemma sendNotifications_raises (changes : list Change) (w : World) :
  this (sendNotifications changes w) = this w
  /\ localStorage (browser (sendNotifications changes w)) = localStorage (browser w)
  /\ status (browser (sendNotifications changes w)) = status (browser w)
  /\ notifications (browser (sendNotifications changes w))
     = notifications (browser w)
       ++ expected_notifications (notificationsEnabled (this w)) changes.
Proof.
  unfold sendNotifications, expected_notifications. fold is_new.
  remember (filter is_new changes) as added eqn:Hadded.
  destruct (notificationsEnabled (this w)); simpl.
  - destruct changes as [|c changes].
    + subst added. simpl. rewrite app_nil_r. now repeat split.
    + clear Hadded. destruct added as [|a [|a' added]]; simpl.
      * rewrite app_nil_r. now repeat split.
      * now repeat split.
      * now repeat split.
  - rewrite app_nil_r. now repeat split.
Qed.

Lemma filter_is_new_nonempty (changes : list Change) :
  filter is_new changes <> [] <-> exists c, In c changes /\ type c = NEW.
Proof.
  split.
  - destruct (filter is_new changes) as [|c added] eqn:E; [congruence|].
    intros _. assert (Hc : In c (filter is_new changes)) by (rewrite E; now left).
    apply filter_In in Hc. destruct Hc as [Hin Hnew]. exists c. split; [exact Hin|].
    unfold is_new in Hnew. now destruct (type c).
  - intros [c [Hin Hnew]] E.
    assert (Hc : In c (filter is_new changes)).
    { apply filter_In. split; [exact Hin|]. unfold is_new. now rewrite Hnew. }
    now rewrite E in Hc.
Qed.

Lemma length_zero_nil {A} (l : list A) : (List.length l =? 0)%nat = true <-> l = [].
Proof. destruct l; simpl; split; congruence. Qed.

Section CycleFacts.

Variable Date_parse : string -> JSNumber.
Variable querySelectorAll : string -> list Anchor.
Variable net : Net.Network.
Variable now : Z.

Let fetch := fetchRealNewsData Date_parse querySelectorAll net now.
Let cycle := checkForUpdates Date_parse querySelectorAll net now.

(** C3.  When the fetch stage of a cycle fails, [checkForUpdates] leaves the
    monitor's fields (among them the current and previous generations and the
    time of the last check) and the whole of localStorage (the snapshot and
    the history among it) as they were, and reports the error in the status
    line.  When fetch and extraction succeed, the former current generation
    becomes the previous one, the fresh records become the current one, and
    the snapshot and the history record it. *)
Theorem checkForUpdates_generations (w : World) :
  (forall message requests',
      fetch (requests (browser w)) = (Throw message, requests') ->
      this (cycle w) = this w
      /\ currentNews (this (cycle w)) = currentNews (this w)
      /\ previousNews (this (cycle w)) = previousNews (this w)
      /\ localStorage (browser (cycle w)) = localStorage (browser w)
      /\ getHistory (cycle w) = getHistory w
      /\ status (browser (cycle w)) = Some (("Error: " ++ message)%string, false))
  /\ (forall freshData requests',
      fetch (requests (browser w)) = (Normal freshData, requests') ->
      previousNews (this (cycle w)) = currentNews (this w)
      /\ currentNews (this (cycle w)) = freshData
      /\ Stored.nola_monitor_data (localStorage (browser (cycle w)))
         = Some (Stored.mkData now freshData (currentNews (this w)))
      /\ hd_error (getHistory (cycle w))
         = Some (mkHistoryEntry now (List.length freshData)
                   (List.length (detectChanges (currentNews (this w)) freshData)))).
Proof.
  split.
  - intros message requests' Hfetch. unfold cycle, checkForUpdates.
    fold fetch. rewrite Hfetch. destruct w as [m b]. repeat split.
  - intros freshData requests' Hfetch. unfold cycle, checkForUpdates.
    fold fetch. rewrite Hfetch. cbn zeta.
    set (changes := detectChanges _ _).
    set (w1 := addToHistory _ _ _ _).
    assert (H1 : previousNews (this w1) = currentNews (this w)
                 /\ currentNews (this w1) = freshData
                 /\ Stored.nola_monitor_data (localStorage (browser w1))
                    = Some (Stored.mkData now freshData (currentNews (this w)))
                 /\ hd_error (getHistory w1)
                    = Some (mkHistoryEntry now (List.length freshData) (List.length changes))).
    { unfold w1, addToHistory, getHistory. simpl.
      repeat split.
      destruct (Stored.nola_monitor_history (localStorage (browser w))) as [h|]; simpl.
      - destruct (10 <? S (List.length h))%nat; reflexivity.
      - reflexivity. }
    destruct H1 as [Hp [Hc [Hd Hh]]].
    assert (H2 : forall w2, this w2 = this w1 -> localStorage (browser w2) = localStorage (browser w1) ->
      previousNews (this (updateStatus
        ("Found " ++ JS.nat_to_string (List.length freshData) ++ " news items, "
         ++ JS.nat_to_string (List.length changes) ++ " changes detected")%string true w2))
        = currentNews (this w)
      /\ currentNews (this (updateStatus
        ("Found " ++ JS.nat_to_string (List.length freshData) ++ " news items, "
         ++ JS.nat_to_string (List.length changes) ++ " changes detected")%string true w2))
        = freshData
      /\ Stored.nola_monitor_data (localStorage (browser (updateStatus
        ("Found " ++ JS.nat_to_string (List.length freshData) ++ " news items, "
         ++ JS.nat_to_string (List.length changes) ++ " changes detected")%string true w2)))
        = Some (Stored.mkData now freshData (currentNews (this w)))
      /\ hd_error (getHistory (updateStatus
        ("Found " ++ JS.nat_to_string (List.length freshData) ++ " news items, "
         ++ JS.nat_to_string (List.length changes) ++ " changes detected")%string true w2))
        = Some (mkHistoryEntry now (List.length freshData) (List.length changes))).
    { intros w2 Ht Hl. unfold getHistory in *. simpl. rewrite Ht, Hl. now repeat split. }
    destruct (0 <? List.length changes)%nat.
    + destruct (sendNotifications_raises changes w1) as [Ht [Hl _]]. now apply H2.
    + now apply H2.
Qed.

(** The notifications raised by one cycle. *)
Lemma checkForUpdates_raises (w : World) :
  notifications (browser (cycle w))
  = notifications (browser w)
    ++ match fst (fetch (requests (browser w))) with
       | Throw _ => []
       | Normal freshData =>
           expected_notifications (notificationsEnabled (this w))
             (detectChanges (currentNews (this w)) freshData)
       end.
Proof.
  unfold cycle, checkForUpdates. fold fetch.
  destruct (fetch (requests (browser w))) as [[freshData|message] requests']; simpl.
  - set (changes := detectChanges _ _).
    set (w1 := addToHistory _ _ _ _).
    assert (Hn : notifications (browser w1) = notifications (browser w)) by reflexivity.
    assert (He : notificationsEnabled (this w1) = notificationsEnabled (this w)) by reflexivity.
    destruct (0 <? List.length changes)%nat eqn:Hlen.
    + destruct (sendNotifications_raises changes w1) as [_ [_ [_ Hr]]].
      rewrite Hr, Hn, He. reflexivity.
    + rewrite Hn. apply Nat.ltb_ge in Hlen.
      assert (Hnil : changes = []) by (destruct changes; [reflexivity|simpl in Hlen; lia]).
      rewrite Hnil. unfold expected_notifications. simpl.
      rewrite andb_false_r. now rewrite app_nil_r.
  - now rewrite app_nil_r.
Qed.

(** C9.  A cycle raises a notification if and only if notifications are
    enabled and its change list holds at least one NEW event; a cycle whose
    changes are all REMOVED events raises none; a cycle never raises more than
    one, and the one it raises is the single-item notification when exactly
    one record is new and the multiple-items notification otherwise.  A cycle
    whose fetch fails raises none. *)
Theorem checkForUpdates_notifications (w : World) :
  exists raised,
    notifications (browser (cycle w)) = notifications (browser w) ++ raised
    /\ (List.length raised <= 1)%nat
    /\ match fst (fetch (requests (browser w))) with
       | Throw _ => raised = []
       | Normal freshData =>
           let changes := detectChanges (currentNews (this w)) freshData in
           let added := filter is_new changes in
           (raised <> [] <->
              notificationsEnabled (this w) = true
              /\ exists c, In c changes /\ type c = NEW)
           /\ (Forall (fun c => type c = REMOVED) changes -> raised = [])
           /\ (forall n, In n raised ->
                 (forall c, added = [c] ->
                    n = single_notification (item c) /\ tag n = "nola-news-single")
                 /\ (List.length added <> 1%nat ->
                    n = multiple_notification (List.length added)
                    /\ tag n = "nola-news-multiple"))
       end.
Proof.
  eexists. split; [apply checkForUpdates_raises|].
  destruct (fst (fetch (requests (browser w)))) as [freshData|message];
    [|split; [simpl; lia|reflexivity]].
  set (changes := detectChanges _ _). cbn zeta.
  unfold expected_notifications.
  pose proof (filter_is_new_nonempty changes) as Hne.
  set (added := filter is_new changes) in *.
  pose proof (length_zero_nil added) as Hz.
  destruct (notificationsEnabled (this w)); simpl;
    destruct (List.length added =? 0)%nat eqn:E0; simpl.
  - (* enabled, nothing new *)
    assert (Hadded : added = []) by now apply Hz.
    split; [lia|]. split; [|split].
    + split; [congruence|]. intros [_ Hex]. apply Hne in Hex. contradiction.
    + reflexivity.
    + intros n [].
  - (* enabled, something new *)
    assert (Hadded : added <> []) by (intros H; apply Hz in H; congruence).
    split; [lia|]. split; [|split].
    + split; [intros _; split; [reflexivity|now apply Hne]|discriminate].
    + intros Hall. apply Hne in Hadded. destruct Hadded as [c [Hin Hnew]].
      rewrite Forall_forall in Hall. specialize (Hall c Hin). congruence.
    + intros n [Hn|[]]. subst n. split.
      * intros c Hc. rewrite Hc. simpl. now split.
      * intros Hlen. apply Nat.eqb_neq in Hlen. rewrite Hlen. now split.
  - split; [lia|]. split; [|split].
    + split; [congruence|]. intros [H _]. discriminate.
    + reflexivity.
    + intros n [].
  - split; [lia|]. split; [|split].
    + split; [congruence|]. intros [H _]. discriminate.
    + reflexivity.
    + intros n [].
Qed.

End CycleFacts.

(** A record as the extraction engine produces it. *)
Definition sample_item (name : string) : NewsItem :=
  mkNewsItem name ("Article " ++ name)%string ("https://nola.gov/next/news/" ++ name)%string
    "Recent" "City of New Orleans" "No description available" (Num 0).

(** The monitor after an earlier successful cycle. *)
Definition world_after_a_cycle : World :=
  mkWorld
    (mkMonitor keywords (Some 1000) [sample_item "a"] [sample_item "a"; sample_item "b"]
       None false (Num 15) false)
    (mkBrowser
       (Stored.mkLocalStorage
          (Some (Stored.mkData 1000 [sample_item "a"; sample_item "b"] [sample_item "a"]))
          (Some [mkHistoryEntry 1000 2 1; mkHistoryEntry 500 1 1])
          None)
       [] 1%positive [] 0%nat (Some ("Found 2 news items, 1 changes detected", true)) []).

Lemma checkForUpdates_generations_witness :
  let w := world_after_a_cycle in
  let failed := checkForUpdates no_dates no_anchors all_relays_down 2000 w in
  let passed := checkForUpdates no_dates no_anchors two_relays_down 2000 w in
  (currentNews (this failed) = [sample_item "a"; sample_item "b"]
   /\ previousNews (this failed) = [sample_item "a"]
   /\ localStorage (browser failed) = localStorage (browser w))
  /\ (previousNews (this passed) = [sample_item "a"; sample_item "b"]
      /\ currentNews (this passed) = []).
Proof.
  intros w failed passed.
  destruct (checkForUpdates_generations no_dates no_anchors all_relays_down 2000 w)
    as [Hfail _].
  destruct (checkForUpdates_generations no_dates no_anchors two_relays_down 2000 w)
    as [_ Hpass].
  split.
  - destruct (Hfail fetch_error_message (map request_url proxies) eq_refl)
      as [_ [Hc [Hp [Hl _]]]].
    exact (conj Hc (conj Hp Hl)).
  - destruct (Hpass [] (map request_url proxies) eq_refl) as [Hp [Hc _]].
    exact (conj Hp Hc).
Defined.

(* ------------------------------------------------------------------ *)
(** *** Scheduler *)
(* ------------------------------------------------------------------ *)

Inductive SchedulerCall : Type :=
| CallStart
| CallStop.

Definition call (c : SchedulerCall) (w : World) : World :=
  match c with
  | CallStart => startAutoCheck w
  | CallStop => stopAutoCheck w
  end.

(** The calls are made one after the other, the first of the list first. *)
Definition run (calls : list SchedulerCall) (w : World) : World :=
  fold_left (fun w c => call c w) calls w.

(** The timer the monitor holds a handle of is the only one armed. *)
Definition only_own_timer (w : World) : Prop :=
  match autoCheckInterval (this w) with
  | Some handle => exists d, timers (browser w) = [mkTimer handle d]
  | None => timers (browser w) = []
  end.

Definition interval_ms (w : World) : JSNumber :=
  mulN (mulN (checkIntervalMinutes (this w)) (Num 60)) (Num 1000).

Lemma startAutoCheck_timers (w : World) :
  autoCheckInterval (this (startAutoCheck w)) = Some (next_timer_id (browser w))
  /\ timers (browser (startAutoCheck w))
     = match autoCheckInterval (this w) with
       | Some old => filter (fun t => negb (Pos.eqb (timer_id t) old)) (timers (browser w))
       | None => timers (browser w)
       end ++ [mkTimer (next_timer_id (browser w)) (interval_ms w)].
Proof.
  unfold startAutoCheck, interval_ms.
  destruct (autoCheckInterval (this w)) as [old|]; simpl; now split.
Qed.

Lemma stopAutoCheck_timers (w : World) :
  autoCheckInterval (this (stopAutoCheck w)) = None
  /\ timers (browser (stopAutoCheck w))
     = match autoCheckInterval (this w) with
       | Some old => filter (fun t => negb (Pos.eqb (timer_id t) old)) (timers (browser w))
       | None => timers (browser w)
       end.
Proof.
  unfold stopAutoCheck.
  destruct (autoCheckInterval (this w)) as [old|] eqn:E; simpl; now split.
Qed.

Lemma startAutoCheck_only_own_timer (w : World) :
  only_own_timer w -> only_own_timer (startAutoCheck w).
Proof.
  unfold only_own_timer. intros Hw.
  destruct (startAutoCheck_timers w) as [Hh Ht]. rewrite Hh, Ht.
  exists (interval_ms w).
  destruct (autoCheckInterval (this w)) as [old|].
  - destruct Hw as [d ->]. simpl. now rewrite Pos.eqb_refl.
  - now rewrite Hw.
Qed.

Lemma stopAutoCheck_only_own_timer (w : World) :
  only_own_timer w -> only_own_timer (stopAutoCheck w).
Proof.
  unfold only_own_timer. intros Hw.
  destruct (stopAutoCheck_timers w) as [Hh Ht]. rewrite Hh, Ht.
  destruct (autoCheckInterval (this w)) as [old|].
  - destruct Hw as [d ->]. simpl. now rewrite Pos.eqb_refl.
  - exact Hw.
Qed.

Lemma run_only_own_timer (calls : list SchedulerCall) :
  forall w, only_own_timer w -> only_own_timer (run calls w).
Proof.
  induction calls as [|c calls IH]; intros w Hw; [exact Hw|].
  simpl. apply IH. destruct c; simpl.
  - now apply startAutoCheck_only_own_timer.
  - now apply stopAutoCheck_only_own_timer.
Qed.

Lemma only_own_timer_at_most_one (w : World) :
  only_own_timer w -> (List.length (timers (browser w)) <= 1)%nat.
Proof.
  unfold only_own_timer. destruct (autoCheckInterval (this w)).
  - intros [d ->]. simpl. lia.
  - intros ->. simpl. lia.
Qed.

(** C10.  After any sequence of [startAutoCheck] and [stopAutoCheck] calls,
    made from a state in which no timer is armed but the one whose handle the
    monitor holds (a new monitor is such a state), at most one repeating timer
    is armed, and it is the one whose handle the monitor holds.  In such a
    state [startAutoCheck] leaves exactly the timer it arms, the previously
    armed one being disarmed, and [stopAutoCheck] leaves none.  In any state
    whatever, [startAutoCheck] removes the timer of the held handle before it
    adds the new one, and [stopAutoCheck] removes the timer of the held handle
    if there is one and otherwise leaves the timers and the handle as they
    are. *)
Theorem auto_check_at_most_one_timer (w0 : World) (calls : list SchedulerCall) :
  only_own_timer w0 ->
  let w := run calls w0 in
  (List.length (timers (browser w)) <= 1)%nat
  /\ only_own_timer w
  /\ timers (browser (startAutoCheck w))
     = [mkTimer (next_timer_id (browser w)) (interval_ms w)]
  /\ timers (browser (stopAutoCheck w)) = []
  /\ (forall v old,
        autoCheckInterval (this v) = Some old ->
        timers (browser (startAutoCheck v))
        = filter (fun t => negb (Pos.eqb (timer_id t) old)) (timers (browser v))
          ++ [mkTimer (next_timer_id (browser v)) (interval_ms v)]
        /\ timers (browser (stopAutoCheck v))
           = filter (fun t => negb (Pos.eqb (timer_id t) old)) (timers (browser v))
        /\ autoCheckInterval (this (stopAutoCheck v)) = None)
  /\ (forall v,
        autoCheckInterval (this v) = None ->
        timers (browser (stopAutoCheck v)) = timers (browser v)
        /\ next_timer_id (browser (stopAutoCheck v)) = next_timer_id (browser v)
        /\ autoCheckInterval (this (stopAutoCheck v)) = None).
Proof.
  intros Hw0 w.
  assert (Hw : only_own_timer w) by now apply run_only_own_timer.
  split; [now apply only_own_timer_at_most_one|]. split; [exact Hw|].
  split; [|split; [|split]].
  - destruct (startAutoCheck_timers w) as [_ Ht]. rewrite Ht.
    unfold only_own_timer in Hw. destruct (autoCheckInterval (this w)).
    + destruct Hw as [d ->]. simpl. now rewrite Pos.eqb_refl.
    + now rewrite Hw.
  - destruct (stopAutoCheck_timers w) as [_ Ht]. rewrite Ht.
    unfold only_own_timer in Hw. destruct (autoCheckInterval (this w)).
    + destruct Hw as [d ->]. simpl. now rewrite Pos.eqb_refl.
    + exact Hw.
  - intros v old Hold.
    destruct (startAutoCheck_timers v) as [_ Hs].
    destruct (stopAutoCheck_timers v) as [Hn Ht].
    rewrite Hold in Hs, Ht. now repeat split.
  - intros v Hnone. unfold stopAutoCheck. rewrite Hnone. now repeat split.
Qed.

Lemma auto_check_at_most_one_timer_witness :
  let w := run [CallStart; CallStart; CallStop; CallStart] initial_world in
  only_own_timer initial_world
  /\ (List.length (timers (browser w)) <= 1)%nat
  /\ autoCheckInterval (this w) = Some 3%positive
  /\ timers (browser (startAutoCheck w)) = [mkTimer 4%positive (Num 900000)]
  /\ timers (browser (stopAutoCheck w)) = []
  /\ timers (browser (stopAutoCheck initial_world)) = [].
Proof.
  intros w.
  assert (H0 : only_own_timer initial_world) by reflexivity.
  destruct (auto_check_at_most_one_timer initial_world
              [CallStart; CallStart; CallStop; CallStart] H0)
    as [Hone [_ [_ [_ [Harmed Hidle]]]]].
  split; [exact H0|]. split; [exact Hone|]. split; [reflexivity|].
  destruct (Harmed w 3%positive eq_refl) as [Hstart [Hstop _]].
  destruct (Hidle initial_world eq_refl) as [Hsame _].
  split; [exact Hstart|]. split; [exact Hstop|exact Hsame].
Defined.

(** C4.  On a new monitor whose auto-check has been started with the button
    (a timer of 15 minutes is armed), [setCheckInterval("5")] records the new
    period but neither stops nor restarts the timer: the timer armed for 15
    minutes stays the only one, because nothing ever sets [autoCheckEnabled],
    the flag that [setCheckInterval] and [toggleAutoCheck] consult. *)
Theorem setCheckInterval_keeps_old_timer :
  let running := toggleAutoCheck initial_world in
  let changed := setCheckInterval "5" running in
  timers (browser running) = [mkTimer 1%positive (Num (15 * 60 * 1000))]
  /\ autoCheckInterval (this running) = Some 1%positive
  /\ autoCheckEnabled (this running) = false
  /\ checkIntervalMinutes (this changed) = Num 5
  /\ timers (browser changed) = [mkTimer 1%positive (Num (15 * 60 * 1000))]
  /\ ~ In (Num (5 * 60 * 1000)) (map delay (timers (browser changed)))
  /\ timers (browser (toggleAutoCheck running)) <> [].
Proof.
  cbv zeta. repeat split; try reflexivity.
  - simpl. intros [H|[]]. discriminate.
  - discriminate.
Qed.

(** Whatever its argument, [setCheckInterval] leaves the timers alone while
    [autoCheckEnabled] is off, and no scheduler method turns the flag on. *)
Lemma autoCheckEnabled_never_set (w : World) (minutes : string) :
  autoCheckEnabled (this (startAutoCheck w)) = autoCheckEnabled (this w)
  /\ autoCheckEnabled (this (stopAutoCheck w)) = autoCheckEnabled (this w)
  /\ autoCheckEnabled (this (toggleAutoCheck w)) = autoCheckEnabled (this w)
  /\ autoCheckEnabled (this (setCheckInterval minutes w)) = autoCheckEnabled (this w)
  /\ (autoCheckEnabled (this w) = false ->
      timers (browser (setCheckInterval minutes w)) = timers (browser w)).
Proof.
  unfold toggleAutoCheck, setCheckInterval, startAutoCheck, stopAutoCheck. simpl.
  destruct (autoCheckEnabled (this w)) eqn:E;
    destruct (autoCheckInterval (this w)); simpl; repeat split; congruence.
Qed.

(* ------------------------------------------------------------------ *)
(** *** Extraction engine: timestamps and ids *)
(* ------------------------------------------------------------------ *)

(** Three headlines as the selector delivers them: one with a date, one
    without, one with a date that no calendar has. *)
Definition dated_anchor : Anchor :=
  mkAnchor "Council budget hearing" (Some "/next/news/budget-hearing") ""
    "Council budget hearing
     August 7, 2025
     From City of New Orleans".

Definition undated_anchor : Anchor :=
  mkAnchor "Road closure notice" (Some "/next/news/road-closure") ""
    "Road closure notice
     From City of New Orleans".

Definition misdated_anchor : Anchor :=
  mkAnchor "Parade route update" (Some "/next/news/parade-route") ""
    "Parade route update
     Smarch 45, 2025
     From City of New Orleans".

(** A date parser that knows the one real date above (midnight UTC). *)
Definition calendar : string -> JSNumber := fun s =>
  if String.eqb s "August 7, 2025" then Num 1754524800000 else NaN.

(** C5.  The timestamp of a record is the parse of its date when the page
    gave one, [NaN] included; it is the retrieval time itself when the page
    gave none.  The fallback "retrieval time minus index hours" is never
    applied: the record at index 2, whose date is unparseable, gets [NaN], and
    the record at index 1, without a date, gets the retrieval time; the
    timestamp of a record does not depend on its index at all. *)
Theorem timestamp_fallback_never_applied (Date_parse : string -> JSNumber) (now : Z) :
  let records :=
    parse_anchors Date_parse now [dated_anchor; undated_anchor; misdated_anchor] in
  map date records = ["August 7, 2025"; "Recent"; "Smarch 45, 2025"]
  /\ map timestamp records
     = [Date_parse "August 7, 2025"; Num now; Date_parse "Smarch 45, 2025"]
  /\ nth 1 (map timestamp records) NaN <> Num (now - 1 * 3600000)
  /\ map timestamp
       (parse_anchors calendar now [dated_anchor; undated_anchor; misdated_anchor])
     = [Num 1754524800000; Num now; NaN]
  /\ (forall linkElement i j,
        option_map timestamp (parse_anchor Date_parse now linkElement i)
        = option_map timestamp (parse_anchor Date_parse now linkElement j)).
Proof.
  cbv zeta. split; [reflexivity|]. split; [reflexivity|].
  split; [|split; [reflexivity|]].
  - change (Num now <> Num (now - 1 * 3600000)). intros H. injection H as H. lia.
  - intros linkElement i j. unfold parse_anchor.
    destruct (JS.truthy (JS.trim (textContent linkElement))
              && (3 <? String.length (JS.trim (textContent linkElement)))%nat);
      reflexivity.
Qed.

(** Two different articles whose addresses end in the same path segment. *)
Definition mayor_update : Anchor :=
  mkAnchor "Mayor announces new budget" (Some "/next/mayor/news/2025/update") ""
    "Mayor announces new budget
     August 7, 2025
     From City of New Orleans".

Definition council_update : Anchor :=
  mkAnchor "Council schedules hearing" (Some "/next/council/news/2025/update") ""
    "Council schedules hearing
     August 8, 2025
     From City of New Orleans".

(** C6.  One extraction can return two records with the same id: the id is
    the last path segment of the address alone, so two articles whose
    addresses end alike (or one article linked twice) share it. *)
Theorem ids_not_distinct (Date_parse : string -> JSNumber) (now : Z) :
  let records := parse_anchors Date_parse now [mayor_update; council_update] in
  map url records
  = ["https://nola.gov/next/mayor/news/2025/update";
     "https://nola.gov/next/council/news/2025/update"]
  /\ map id records = ["update"; "update"]
  /\ ~ NoDup (map id records)
  /\ map id (parse_anchors Date_parse now [dated_anchor; dated_anchor])
     = ["budget-hearing"; "budget-hearing"].
Proof.
  cbv zeta. split; [reflexivity|]. split; [reflexivity|]. split; [|reflexivity].
  change (~ NoDup ["update"; "update"]). intros H.
  inversion H as [|? ? Hnin _]. apply Hnin. now left.
Qed.

(* ------------------------------------------------------------------ *)
(** *** URL normalisation *)
(* ------------------------------------------------------------------ *)

Definition ORIGIN : string := "https://nola.gov".

Lemma startsWith_cons (a b : ascii) (s p : string) :
  JS.startsWith (String a s) (String b p) = Ascii.eqb a b && JS.startsWith s p.
Proof. reflexivity. Qed.

Lemma includes_startsWith (s p : string) :
  JS.startsWith s p = true -> JS.includes s p = true.
Proof. intros H. destruct s; cbn [JS.includes]; now rewrite H. Qed.

Lemma includes_tail (a : ascii) (s p : string) :
  JS.includes (String a s) p = false -> JS.includes s p = false.
Proof.
  cbn [JS.includes]. intros H. now apply orb_false_iff in H.
Qed.

Lemma lit_Some (l : string) :
  forall s r, Regex.lit l s = Some r -> s = (l ++ r)%string.
Proof.
  induction l as [|b l IH]; intros s r H; simpl in *.
  - now injection H as ->.
  - destruct s as [|a s]; [discriminate|].
    destruct (Ascii.eqb a b) eqn:E; [|discriminate].
    apply Ascii.eqb_eq in E. subst a. f_equal. now apply IH.
Qed.

Lemma lit_startsWith (l : string) :
  forall s, JS.startsWith s l = true -> exists r, Regex.lit l s = Some r.
Proof.
  induction l as [|b l IH]; intros s H; simpl in *.
  - now exists s.
  - destruct s as [|a s]; [discriminate|].
    apply andb_true_iff in H. destruct H as [Hab Hs]. rewrite Hab. now apply IH.
Qed.

Lemma many_length (p : ascii -> bool) (s : string) :
  (String.length (Regex.many p s) <= String.length s)%nat.
Proof.
  induction s as [|a s IH]; simpl; [lia|]. destruct (p a); simpl; lia.
Qed.

Lemma port_shorter (s r : string) :
  Regex.port s = Some r -> (String.length r <= String.length s)%nat.
Proof.
  unfold Regex.port, Regex.plus, Regex.seq.
  destruct (Regex.lit ":" s) as [s1|] eqn:E1; [|discriminate].
  apply lit_Some in E1. subst s.
  destruct s1 as [|a s1]; simpl; [discriminate|].
  destruct (JS.is_digit a); [|discriminate].
  intros H. injection H as <-. pose proof (many_length JS.is_digit s1). lia.
Qed.

Lemma opt_port_shorter (s r : string) :
  Regex.opt Regex.port s = Some r -> (String.length r <= String.length s)%nat.
Proof.
  unfold Regex.opt. destruct (Regex.port s) as [r'|] eqn:E; intros H; injection H as <-.
  - now apply port_shorter.
  - lia.
Qed.

Lemma bare_localhost_Some (s r : string) :
  Regex.bare_localhost s = Some r ->
  exists r0, s = ("localhost" ++ r0)%string /\ (String.length r <= String.length r0)%nat.
Proof.
  unfold Regex.bare_localhost, Regex.seq.
  destruct (Regex.lit "localhost" s) as [r0|] eqn:E; [|discriminate].
  intros H. apply lit_Some in E. exists r0. split; [exact E|now apply opt_port_shorter].
Qed.

Lemma bare_localhost_None (s : string) :
  Regex.bare_localhost s = None -> JS.startsWith s "localhost" = false.
Proof.
  intros H. destruct (JS.startsWith s "localhost") eqn:E; [|reflexivity].
  apply lit_startsWith in E. destruct E as [r Hr].
  unfold Regex.bare_localhost, Regex.seq in H. rewrite Hr in H.
  unfold Regex.opt in H. destruct (Regex.port r); discriminate.
Qed.

Lemma scheme_localhost_Some (s r : string) :
  Regex.scheme_localhost s = Some r -> JS.includes s "localhost" = true.
Proof.
  unfold Regex.scheme_localhost, Regex.seq.
  destruct (Regex.lit "http" s) as [s1|] eqn:E1; [|discriminate].
  apply lit_Some in E1. subst s.
  unfold Regex.opt.
  destruct (Regex.lit "s" s1) as [s2|] eqn:E2.
  - apply lit_Some in E2. subst s1.
    destruct (Regex.lit "://localhost" s2) as [s3|] eqn:E3; [|discriminate].
    apply lit_Some in E3. subst s2. reflexivity.
  - destruct (Regex.lit "://localhost" s1) as [s3|] eqn:E3; [|discriminate].
    apply lit_Some in E3. subst s1. reflexivity.
Qed.

(** Replacing the matches of a pattern that needs "localhost" does nothing to
    a string without it. *)
Lemma replace_fuel_noop (m : Regex.matcher) (rep : string) :
  (forall s r, m s = Some r -> JS.includes s "localhost" = true) ->
  forall fuel s, JS.includes s "localhost" = false -> Regex.replace_fuel m rep fuel s = s.
Proof.
  intros Hm. induction fuel as [|fuel IH]; intros s Hs; [reflexivity|].
  cbn [Regex.replace_fuel]. destruct (m s) as [r|] eqn:E.
  - apply Hm in E. congruence.
  - destruct s as [|a s]; [reflexivity|]. f_equal. apply IH.
    now apply includes_tail in Hs.
Qed.

Lemma replace_match (m : Regex.matcher) (rep s r : string) :
  m s = Some r -> s <> "" ->
  Regex.replace m rep s
  = (rep ++ Regex.replace_fuel m rep (String.length s - 1) r)%string.
Proof.
  intros Hm Hs. unfold Regex.replace. destruct s as [|a s]; [contradiction|].
  replace (String.length (String a s) - 1)%nat with (String.length s)
    by (cbn [String.length]; lia).
  cbn [String.length Regex.replace_fuel]. now rewrite Hm.
Qed.

Fixpoint avoids (c : ascii) (p : string) : bool :=
  match p with
  | EmptyString => true
  | String b p' => negb (Ascii.eqb c b) && avoids c p'
  end.

(** What the second replacement writes begins with "n"; a prefix without "n"
    found in its result was therefore copied from its argument. *)
Lemma replace_bare_keeps_prefix (p : string) :
  avoids "n" p = true ->
  forall fuel t,
    JS.startsWith (Regex.replace_fuel Regex.bare_localhost "nola.gov" fuel t) p = true ->
    JS.startsWith t p = true.
Proof.
  induction p as [|b p IH]; intros Hav fuel t H; [reflexivity|].
  cbn [avoids] in Hav. apply andb_true_iff in Hav. destruct Hav as [Hb Hp].
  apply negb_true_iff in Hb.
  destruct fuel as [|fuel]; [exact H|].
  cbn [Regex.replace_fuel] in H.
  destruct (Regex.bare_localhost t) as [r|] eqn:E.
  - cbn [append JS.startsWith] in H. rewrite Hb in H. discriminate.
  - destruct t as [|a t]; [discriminate H|].
    rewrite startsWith_cons in H |- *.
    apply andb_true_iff in H. destruct H as [Hab Ht]. rewrite Hab. simpl.
    now apply (IH Hp fuel).
Qed.

Lemma includes_nola_gov (x : string) :
  JS.includes ("nola.gov" ++ x) "localhost" = JS.includes x "localhost".
Proof. reflexivity. Qed.

Lemma includes_origin (x : string) :
  JS.includes (ORIGIN ++ x) "localhost" = JS.includes x "localhost".
Proof. reflexivity. Qed.

Lemma includes_origin_slash (x : string) :
  JS.includes (ORIGIN ++ "/" ++ x) "localhost" = JS.includes x "localhost".
Proof. reflexivity. Qed.

(** The second replacement leaves no "localhost" behind. *)
Lemma replace_bare_no_localhost (fuel : nat) :
  forall s,
    (String.length s <= fuel)%nat ->
    JS.includes (Regex.replace_fuel Regex.bare_localhost "nola.gov" fuel s) "localhost"
    = false.
Proof.
  induction fuel as [|fuel IH]; intros s Hlen.
  - destruct s; [reflexivity|simpl in Hlen; lia].
  - cbn [Regex.replace_fuel]. destruct (Regex.bare_localhost s) as [r|] eqn:E.
    + rewrite includes_nola_gov. apply IH.
      apply bare_localhost_Some in E. destruct E as [r0 [-> Hr]].
      simpl in Hlen. lia.
    + destruct s as [|a s]; [reflexivity|].
      cbn [JS.includes]. rewrite IH by (simpl in Hlen; lia). rewrite orb_false_r.
      destruct (JS.startsWith
                  (String a (Regex.replace_fuel Regex.bare_localhost "nola.gov" fuel s))
                  "localhost") eqn:Hs; [|reflexivity].
      exfalso. apply bare_localhost_None in E.
      change "localhost" with (String "l" "ocalhost") in Hs, E.
      rewrite startsWith_cons in Hs, E.
      apply andb_true_iff in Hs. destruct Hs as [Ha Hs]. rewrite Ha in E.
      apply replace_bare_keeps_prefix in Hs; [|reflexivity].
      rewrite Hs in E. discriminate.
Qed.

Lemma truthy_false (u : string) : JS.truthy u = false -> u = "".
Proof.
  unfold JS.truthy. intros H. apply negb_false_iff in H. now apply String.eqb_eq.
Qed.

(** The result of normalisation never contains "localhost". *)
Lemma normalize_url_no_localhost (u : string) :
  JS.includes (normalize_url u) "localhost" = false.
Proof.
  unfold normalize_url.
  destruct (JS.truthy u) eqn:T.
  - destruct (JS.includes u "localhost") eqn:I; cbn [andb].
    + unfold Regex.replace at 1. apply replace_bare_no_localhost. lia.
    + destruct (JS.startsWith u "/") eqn:S; cbn [andb negb].
      * fold ORIGIN. now rewrite includes_origin.
      * destruct (negb (JS.startsWith u "http") && negb (JS.includes u "nopdnews.com")).
        -- fold ORIGIN. now rewrite includes_origin_slash.
        -- exact I.
  - apply truthy_false in T. now subst u.
Qed.

(** An absolute address without "localhost" is left as it is. *)
Lemma normalize_url_absolute (u : string) :
  JS.startsWith u "http" = true -> JS.includes u "localhost" = false ->
  normalize_url u = u.
Proof.
  intros Hh Hl. unfold normalize_url. rewrite Hl, Hh, andb_false_r.
  destruct u as [|a u]; [reflexivity|].
  cbn [JS.startsWith] in Hh. apply andb_true_iff in Hh. destruct Hh as [Ha _].
  apply Ascii.eqb_eq in Ha. subst a. reflexivity.
Qed.

Lemma normalize_url_relative (u : string) :
  JS.includes u "localhost" = false -> JS.startsWith u "/" = true ->
  normalize_url u = (ORIGIN ++ u)%string.
Proof.
  intros Hl Hs. unfold normalize_url. rewrite Hl, Hs, andb_false_r.
  destruct u as [|a u]; [discriminate|]. reflexivity.
Qed.

Lemma normalize_url_other (u : string) :
  u <> "" -> JS.includes u "localhost" = false -> JS.startsWith u "/" = false ->
  JS.startsWith u "http" = false -> JS.includes u "nopdnews.com" = false ->
  normalize_url u = (ORIGIN ++ "/" ++ u)%string.
Proof.
  intros Hne Hl Hs Hh Hn. unfold normalize_url. rewrite Hl, Hs, Hh, Hn, !andb_false_r.
  destruct u as [|a u]; [contradiction|]. reflexivity.
Qed.

Lemma normalize_url_idempotent_plain (u : string) :
  JS.includes u "localhost" = false ->
  normalize_url (normalize_url u) = normalize_url u.
Proof.
  intros Hl.
  destruct (JS.truthy u) eqn:T; [|apply truthy_false in T; now subst u].
  destruct (JS.startsWith u "/") eqn:S.
  - rewrite (normalize_url_relative u Hl S).
    apply normalize_url_absolute; [reflexivity|now rewrite includes_origin].
  - destruct (JS.startsWith u "http") eqn:H.
    + now rewrite !(normalize_url_absolute u H Hl).
    + destruct (JS.includes u "nopdnews.com") eqn:N.
      * assert (E : normalize_url u = u).
        { unfold normalize_url. now rewrite Hl, S, H, N, !andb_false_r. }
        now rewrite !E.
      * assert (Hne : u <> "") by (intros ->; discriminate).
        rewrite (normalize_url_other u Hne Hl S H N).
        apply normalize_url_absolute; [reflexivity|now rewrite includes_origin_slash].
Qed.

Fixpoint all_digits (d : string) : bool :=
  match d with
  | EmptyString => true
  | String a d' => JS.is_digit a && all_digits d'
  end.

(** A port is absent, or a non-empty run of digits. *)
Definition port_like (port : option string) : bool :=
  match port with
  | Some d => JS.truthy d && all_digits d
  | None => true
  end.

(** A path is empty or begins with a slash. *)
Definition path_like (path : string) : bool :=
  negb (JS.truthy path) || JS.startsWith path "/".

(** [http://localhost], [https://localhost], with or without [:port],
    followed by a path. *)
Definition loopback_href (secure : bool) (port : option string) (path : string) : string :=
  ("http" ++ (if secure then "s" else "") ++ "://localhost"
   ++ match port with Some d => ":" ++ d | None => "" end ++ path)%string.

Lemma many_digits_path (d path : string) :
  all_digits d = true -> path_like path = true ->
  Regex.many JS.is_digit (d ++ path) = path.
Proof.
  intros Hd Hp. induction d as [|a d IH]; simpl in *.
  - destruct path as [|c path]; [reflexivity|].
    unfold path_like in Hp. simpl in Hp. rewrite andb_true_r in Hp.
    apply Ascii.eqb_eq in Hp. now subst c.
  - apply andb_true_iff in Hd. destruct Hd as [Ha Hd]. rewrite Ha. now apply IH.
Qed.

Lemma opt_port_path (port : option string) (path : string) :
  port_like port = true -> path_like path = true ->
  Regex.opt Regex.port (match port with Some d => ":" ++ d | None => "" end ++ path)%string
  = Some path.
Proof.
  intros Hport Hpath. destruct port as [d|]; simpl in *.
  - apply andb_true_iff in Hport. destruct Hport as [Hne Hd].
    destruct d as [|a d]; [discriminate|].
    unfold Regex.opt, Regex.port, Regex.plus, Regex.seq. simpl in *.
    apply andb_true_iff in Hd. destruct Hd as [Ha Hd]. rewrite Ha.
    now rewrite many_digits_path.
  - destruct path as [|c path]; [reflexivity|].
    unfold path_like in Hpath. simpl in Hpath. rewrite andb_true_r in Hpath.
    apply Ascii.eqb_eq in Hpath. now subst c.
Qed.

Lemma scheme_localhost_loopback (secure : bool) (port : option string) (path : string) :
  port_like port = true -> path_like path = true ->
  Regex.scheme_localhost (loopback_href secure port path) = Some path.
Proof.
  intros Hport Hpath. pose proof (opt_port_path port path Hport Hpath) as H.
  unfold Regex.scheme_localhost, loopback_href.
  destruct secure; unfold Regex.seq at 1; cbn -[Regex.opt Regex.port append];
    cbn [append]; exact H.
Qed.

Lemma normalize_url_loopback (secure : bool) (port : option string) (path : string) :
  port_like port = true -> path_like path = true ->
  JS.includes path "localhost" = false ->
  normalize_url (loopback_href secure port path) = (ORIGIN ++ path)%string.
Proof.
  intros Hport Hpath Hl.
  assert (Hin : JS.includes (loopback_href secure port path) "localhost" = true)
    by (unfold loopback_href; destruct secure; reflexivity).
  assert (Hne : loopback_href secure port path <> "")
    by (unfold loopback_href; destruct secure; discriminate).
  assert (Ht : JS.truthy (loopback_href secure port path) = true)
    by (unfold loopback_href; destruct secure; reflexivity).
  unfold normalize_url. rewrite Ht, Hin. cbn [andb].
  rewrite (replace_match _ _ _ _ (scheme_localhost_loopback secure port path Hport Hpath) Hne).
  rewrite (replace_fuel_noop _ _ scheme_localhost_Some _ _ Hl).
  fold ORIGIN. unfold Regex.replace. apply replace_fuel_noop.
  - intros s r H. apply bare_localhost_Some in H. destruct H as [r0 [-> _]]. reflexivity.
  - now rewrite includes_origin.
Qed.

(** C7, as the code has it.  Normalisation leaves no "localhost" in any
    address.  It maps [http://localhost] or [https://localhost], with or
    without a port, followed by a path that is empty or begins with "/" and
    does not itself contain "localhost", to the canonical origin followed by
    that path.  It prefixes an address that begins with "/" and does not
    contain "localhost" with the canonical origin; it prefixes any other
    non-empty address that does not contain "localhost", does not begin with
    "http" and does not contain "nopdnews.com" with the canonical origin and a
    slash.  Applied a second time it changes nothing, for every address that
    does not contain "localhost" and for the loopback addresses above. *)
Theorem normalize_url_rules :
  (forall u, JS.includes (normalize_url u) "localhost" = false)
  /\ (forall secure port path,
        port_like port = true -> path_like path = true ->
        JS.includes path "localhost" = false ->
        normalize_url (loopback_href secure port path) = (ORIGIN ++ path)%string
        /\ normalize_url (normalize_url (loopback_href secure port path))
           = normalize_url (loopback_href secure port path))
  /\ (forall u,
        JS.includes u "localhost" = false -> JS.startsWith u "/" = true ->
        normalize_url u = (ORIGIN ++ u)%string)
  /\ (forall u,
        u <> "" -> JS.includes u "localhost" = false ->
        JS.startsWith u "/" = false -> JS.startsWith u "http" = false ->
        JS.includes u "nopdnews.com" = false ->
        normalize_url u = (ORIGIN ++ "/" ++ u)%string)
  /\ (forall u,
        JS.includes u "localhost" = false ->
        normalize_url (normalize_url u) = normalize_url u).
Proof.
  split; [exact normalize_url_no_localhost|].
  split; [|split; [exact normalize_url_relative|
           split; [exact normalize_url_other|exact normalize_url_idempotent_plain]]].
  intros secure port path Hport Hpath Hl.
  rewrite (normalize_url_loopback secure port path Hport Hpath Hl).
  split; [reflexivity|].
  apply normalize_url_absolute; [reflexivity|now rewrite includes_origin].
Qed.

Lemma normalize_url_rules_witness :
  normalize_url "http://localhost:8000/next/news/" = "https://nola.gov/next/news/"
  /\ normalize_url (normalize_url "http://localhost:8000/next/news/")
     = normalize_url "http://localhost:8000/next/news/"
  /\ normalize_url "/next/news/budget-hearing"
     = "https://nola.gov/next/news/budget-hearing"
  /\ normalize_url "next/news/budget-hearing"
     = "https://nola.gov/next/news/budget-hearing"
  /\ normalize_url (normalize_url "/next/news/budget-hearing")
     = normalize_url "/next/news/budget-hearing".
Proof.
  destruct normalize_url_rules as [_ [Hloop [Hrel [Hother Hidem]]]].
  destruct (Hloop false (Some "8000") "/next/news/" eq_refl eq_refl eq_refl)
    as [Hmap Htwice].
  split; [exact Hmap|]. split; [exact Htwice|].
  split; [exact (Hrel "/next/news/budget-hearing" eq_refl eq_refl)|].
  split.
  - apply (Hother "next/news/budget-hearing"); [discriminate|reflexivity..].
  - exact (Hidem "/next/news/budget-hearing" eq_refl).
Defined.

(** C7 as stated fails.  An address that contains "localhost" takes the first
    branch only: without a scheme it is not put on the canonical origin, with
    a leading slash it is not prefixed, and in both cases a second
    normalisation prefixes what the first one produced. *)
Lemma normalize_url_not_idempotent :
  normalize_url "localhost:8000/next/news/" = "nola.gov/next/news/"
  /\ normalize_url (normalize_url "localhost:8000/next/news/")
     = "https://nola.gov/nola.gov/next/news/"
  /\ normalize_url (normalize_url "localhost:8000/next/news/")
     <> normalize_url "localhost:8000/next/news/"
  /\ JS.startsWith "/localhost/press" "/" = true
  /\ normalize_url "/localhost/press" = "/nola.gov/press"
  /\ normalize_url "/localhost/press" <> (ORIGIN ++ "/localhost/press")%string
  /\ normalize_url (normalize_url "/localhost/press")
     <> normalize_url "/localhost/press".
Proof.
  repeat split; try reflexivity; discriminate.
Qed.

(* ================================================================== *)
(** * The remaining methods of the monitor *)
(* ================================================================== *)

(** ** [toggleKeyword], [clearHistory], [loadFromStorage] and [init] *)

Definition set_activeKeywords (v : list string) (m : Monitor) : Monitor :=
  mkMonitor v (lastCheck m) (previousNews m) (currentNews m) (autoCheckInterval m)
    (autoCheckEnabled m) (checkIntervalMinutes m) (notificationsEnabled m).
Definition set_autoCheckEnabled (v : bool) (m : Monitor) : Monitor :=
  mkMonitor (activeKeywords m) (lastCheck m) (previousNews m) (currentNews m)
    (autoCheckInterval m) v (checkIntervalMinutes m) (notificationsEnabled m).

(** A [Set] of strings, kept as the list of its elements in insertion order,
    which is the order in which [Array.from] and iteration deliver them. *)
Module StringSet.

Definition has (set : list string) (x : string) : bool :=
  existsb (String.eqb x) set.

Definition delete (set : list string) (x : string) : list string :=
  filter (fun y => negb (String.eqb x y)) set.

Definition add (set : list string) (x : string) : list string :=
  if has set x then set else push set x.

End StringSet.

(** [toggleKeyword(tag)], for the keyword in [tag.dataset.keyword].  The
    re-rendering of the current results changes the page only. *)
Definition toggleKeyword (keyword : string) (w : World) : World :=
  let active := activeKeywords (this w) in
  if StringSet.has active keyword
  then mkWorld (set_activeKeywords (StringSet.delete active keyword) (this w)) (browser w)
  else mkWorld (set_activeKeywords (StringSet.add active keyword) (this w)) (browser w).

(** [clearHistory()]; [confirmed] is the answer to the [confirm] dialog.  The
    texts it writes to the page, the status line among them, are written
    directly and not through [updateStatus]. *)
Definition clearHistory (confirmed : bool) (w : World) : World :=
  if confirmed then
    let w := if autoCheckEnabled (this w) then stopAutoCheck w else w in
    let storage := localStorage (browser w) in
    let storage := Stored.set_history None storage in
    let storage := Stored.set_data None storage in
    let storage := Stored.set_autocheck None storage in
    let b := set_localStorage storage (browser w) in
    let m := set_previousNews [] (this w) in
    let m := set_currentNews [] m in
    let m := set_lastCheck None m in
    let m := set_autoCheckEnabled false m in
    mkWorld m b
  else w.

(** What [JSON.parse(JSON.stringify(x))] makes of a number: [NaN] is written
    as [null].  The monitor uses a stored number in two ways only, as the left
    operand of [||] and as the right operand of a subtraction, and in both
    [null] acts as 0 does. *)
Definition JSON_number (x : JSNumber) : JSNumber :=
  match x with
  | Num z => Num z
  | NaN => Num 0
  end.

Definition JSON_item (r : NewsItem) : NewsItem :=
  mkNewsItem (id r) (title r) (url r) (date r) (source r) (excerpt r)
    (JSON_number (timestamp r)).

(** [x || fallback] on numbers: 0 and [NaN] are falsy. *)
Definition number_or (x fallback : JSNumber) : JSNumber :=
  match x with
  | Num 0 => fallback
  | Num z => Num z
  | NaN => fallback
  end.

(** [loadFromStorage()].  A key that is not set reads as the empty object or
    the empty array.  The stored text is taken to be what the monitor wrote; the
    [catch] for text that does not parse is not modelled. *)
Definition loadFromStorage (w : World) : World :=
  let storage := localStorage (browser w) in
  let m := this w in
  let m :=
    match Stored.nola_monitor_data storage with
    | Some data =>
        let m := set_lastCheck
                   (if Stored.lastCheck data =? 0 then None else Some (Stored.lastCheck data)) m in
        let m := set_currentNews (map JSON_item (Stored.currentNews data)) m in
        set_previousNews (map JSON_item (Stored.previousNews data)) m
    | None =>
        let m := set_lastCheck None m in
        let m := set_currentNews [] m in
        set_previousNews [] m
    end in
  let w := mkWorld m (browser w) in
  match Stored.nola_monitor_autocheck storage with
  | Some autoCheckData =>
      if Stored.enabled autoCheckData then
        let w := mkWorld
                   (set_checkIntervalMinutes
                      (number_or (JSON_number (Stored.interval autoCheckData)) (Num 15))
                      (this w))
                   (browser w) in
        startAutoCheck w
      else w
  | None => w
  end.

(** A page load: a new monitor in a browser that has kept localStorage and
    nothing else; the constructor ends with [init], which reads the storage. *)
Definition open_page (storage : Stored.LocalStorage) : World :=
  loadFromStorage (mkWorld new_monitor (mkBrowser storage [] 1%positive [] 0%nat None [])).

Definition reload (w : World) : World := open_page (localStorage (browser w)).

(** ** [requestNotificationPermission] *)

Inductive Permission : Type := Default | Granted | Denied.

Definition Permission_eqb (a b : Permission) : bool :=
  match a, b with
  | Default, Default | Granted, Granted | Denied, Denied => true
  | _, _ => false
  end.

Definition set_notificationsEnabled (v : bool) (m : Monitor) : Monitor :=
  mkMonitor (activeKeywords m) (lastCheck m) (previousNews m) (currentNews m)
    (autoCheckInterval m) (autoCheckEnabled m) (checkIntervalMinutes m) v.

(** [requestNotificationPermission()].  [api] is [Notification.permission], or
    [None] in a browser without the Notification API; [answer] is what
    [Notification.requestPermission()] resolves to when it is called.  The
    second component tells whether the user was asked. *)
Definition requestNotificationPermission (api : option Permission) (answer : Permission)
    (w : World) : World * bool :=
  match api with
  | Some permission =>
      if Permission_eqb permission Default
      then (mkWorld (set_notificationsEnabled (Permission_eqb answer Granted) (this w))
              (browser w), true)
      else (mkWorld (set_notificationsEnabled (Permission_eqb permission Granted) (this w))
              (browser w), false)
  | None => (w, false)
  end.

(* ================================================================== *)
(** * Further properties *)
(* ================================================================== *)

(* ------------------------------------------------------------------ *)
(** *** Change detector, continued *)
(* ------------------------------------------------------------------ *)

Definition is_removed (change : Change) : bool := ChangeType_eqb (type change) REMOVED.

Lemma filter_nil_iff {A} (f : A -> bool) (l : list A) :
  filter f l = [] <-> forall x, In x l -> f x = false.
Proof.
  induction l as [|a l IH]; simpl.
  - split; [intros _ x []|reflexivity].
  - destruct (f a) eqn:E.
    + split; [discriminate|]. intros H. specialize (H a (or_introl eq_refl)). congruence.
    + rewrite IH. split.
      * intros H x [<-|Hx]; [exact E|now apply H].
      * intros H x Hx. apply H. now right.
Qed.

Lemma absent_from_false (ys : list NewsItem) (x : NewsItem) :
  absent_from ys x = false <-> In (id x) (map id ys).
Proof.
  unfold absent_from. destruct (in_dec string_dec (id x) (map id ys)); split;
    intros; congruence || assumption || reflexivity.
Qed.

Lemma only_in_nil_iff (xs ys : list NewsItem) :
  only_in xs ys = [] <-> forall x, In x xs -> In (id x) (map id ys).
Proof.
  unfold only_in. rewrite filter_nil_iff. split; intros H x Hx.
  - now apply absent_from_false, H.
  - now apply absent_from_false, H.
Qed.

Lemma detectChanges_nil_iff (P C : list NewsItem) :
  detectChanges P C = []
  <-> (forall c, In c C -> In (id c) (map id P))
      /\ (forall p, In p P -> In (id p) (map id C)).
Proof.
  rewrite detectChanges_spec. unfold spec_detect.
  rewrite <- !only_in_nil_iff. split.
  - intros H. apply app_eq_nil in H. destruct H as [H1 H2].
    apply map_eq_nil in H1, H2. now split.
  - intros [-> ->]. reflexivity.
Qed.

Lemma detectChanges_same_ids (P C : list NewsItem) :
  map id P = map id C -> detectChanges P C = [].
Proof.
  intros Hids. apply detectChanges_nil_iff. split.
  - intros c Hc. rewrite Hids. now apply in_map.
  - intros p Hp. rewrite <- Hids. now apply in_map.
Qed.

(** X1.  [detectChanges] reports nothing exactly when every id of the current
    records occurs among the previous ones and every id of the previous
    records occurs among the current ones; in particular two generations with
    the same ids in the same order give no change, whatever else differs in
    the records (a changed title is not a change). *)
Theorem detectChanges_silent_iff_same_ids (P C : list NewsItem) :
  (detectChanges P C = []
   <-> (forall c, In c C -> In (id c) (map id P))
       /\ (forall p, In p P -> In (id p) (map id C)))
  /\ (map id P = map id C -> detectChanges P C = []).
Proof.
  split; [apply detectChanges_nil_iff|apply detectChanges_same_ids].
Qed.

Lemma detectChanges_silent_witness :
  detectChanges
    [mkNewsItem "budget-hearing" "Budget hearing" "https://nola.gov/news/budget-hearing"
       "August 7, 2025" "City of New Orleans" "No description available" (Num 1)]
    [mkNewsItem "budget-hearing" "Budget hearing POSTPONED" "https://nola.gov/news/budget-hearing"
       "August 9, 2025" "City of New Orleans" "The hearing moves to next week, officials said." (Num 2)]
  = [].
Proof.
  apply (proj2 (detectChanges_silent_iff_same_ids _ _)). reflexivity.
Defined.

Lemma filter_map_new (l : list NewsItem) :
  filter is_new (map new_change l) = map new_change l
  /\ filter is_removed (map new_change l) = [].
Proof. induction l as [|x l [IH1 IH2]]; simpl; [now split|]. now rewrite IH1, IH2. Qed.

Lemma filter_map_removed (l : list NewsItem) :
  filter is_removed (map removed_change l) = map removed_change l
  /\ filter is_new (map removed_change l) = [].
Proof. induction l as [|x l [IH1 IH2]]; simpl; [now split|]. now rewrite IH1, IH2. Qed.

Lemma added_items (P C : list NewsItem) :
  map item (filter is_new (detectChanges P C)) = only_in C P.
Proof.
  rewrite detectChanges_spec. unfold spec_detect. rewrite filter_app.
  rewrite (proj1 (filter_map_new _)), (proj2 (filter_map_removed _)), app_nil_r.
  rewrite map_map. simpl. apply map_id.
Qed.

Lemma removed_items (P C : list NewsItem) :
  map item (filter is_removed (detectChanges P C)) = only_in P C.
Proof.
  rewrite detectChanges_spec. unfold spec_detect. rewrite filter_app.
  rewrite (proj2 (filter_map_new _)), (proj1 (filter_map_removed _)). simpl.
  rewrite map_map. simpl. apply map_id.
Qed.

(** X2.  Exchanging the two generations exchanges the roles: the records
    reported NEW when going from [P] to [C] are, in the same order, the
    records reported REMOVED when going from [C] to [P], and conversely; both
    directions report the same number of changes. *)
Theorem detectChanges_exchange (P C : list NewsItem) :
  map item (filter is_new (detectChanges P C))
  = map item (filter is_removed (detectChanges C P))
  /\ map item (filter is_removed (detectChanges P C))
     = map item (filter is_new (detectChanges C P))
  /\ List.length (detectChanges P C) = List.length (detectChanges C P).
Proof.
  rewrite !added_items, !removed_items. repeat split.
  rewrite !detectChanges_spec. unfold spec_detect.
  rewrite !length_app, !length_map. lia.
Qed.

(* ------------------------------------------------------------------ *)
(** *** History *)
(* ------------------------------------------------------------------ *)

Lemma getHistory_addToHistory (now : Z) (n c : nat) (w : World) :
  getHistory (addToHistory now n c w)
  = firstn 10 (mkHistoryEntry now n c :: getHistory w).
Proof.
  unfold addToHistory. unfold getHistory at 1. cbn [browser localStorage set_localStorage
    Stored.set_history Stored.nola_monitor_history].
  destruct (10 <? List.length (mkHistoryEntry now n c :: getHistory w))%nat eqn:E;
    [reflexivity|].
  apply Nat.ltb_ge in E. symmetry. now apply firstn_all2.
Qed.

(** X3.  [addToHistory] puts the new entry first and keeps at most ten
    entries: the stored history becomes the new entry followed by the first
    nine of the former entries, in their order; while fewer than ten were
    stored nothing is dropped. *)
Theorem addToHistory_newest_first_capped (now : Z) (n c : nat) (w : World) :
  let entry := mkHistoryEntry now n c in
  let after := getHistory (addToHistory now n c w) in
  after = entry :: firstn 9 (getHistory w)
  /\ (List.length after <= 10)%nat
  /\ List.length after = Nat.min 10 (S (List.length (getHistory w)))
  /\ ((List.length (getHistory w) < 10)%nat -> after = entry :: getHistory w)
  /\ this (addToHistory now n c w) = this w
  /\ Stored.nola_monitor_data (localStorage (browser (addToHistory now n c w)))
     = Stored.nola_monitor_data (localStorage (browser w)).
Proof.
  cbv zeta. rewrite getHistory_addToHistory.
  split; [reflexivity|]. split; [|split; [|split; [|split; reflexivity]]].
  - rewrite length_firstn. lia.
  - rewrite length_firstn. simpl List.length. lia.
  - intros Hlt. rewrite firstn_cons. f_equal. apply firstn_all2. lia.
Qed.

Lemma addToHistory_witness :
  let w := addToHistory 11 1 0 (addToHistory 10 1 1 initial_world) in
  getHistory (addToHistory 12 2 1 w)
  = [mkHistoryEntry 12 2 1; mkHistoryEntry 11 1 0; mkHistoryEntry 10 1 1].
Proof.
  intros w.
  apply (proj1 (proj2 (proj2 (proj2 (addToHistory_newest_first_capped 12 2 1 w))))).
  simpl. lia.
Defined.

(* ------------------------------------------------------------------ *)
(** *** Extraction engine, continued *)
(* ------------------------------------------------------------------ *)

(** The records of the anchors from index [index] on, in order. *)
Fixpoint collect (Date_parse : string -> JSNumber) (now : Z)
    (articleElements : list Anchor) (index : nat) : list NewsItem :=
  match articleElements with
  | [] => []
  | linkElement :: rest =>
      match parse_anchor Date_parse now linkElement index with
      | Some record => record :: collect Date_parse now rest (S index)
      | None => collect Date_parse now rest (S index)
      end
  end.

Lemma forEach_anchor_collect Date_parse now (articleElements : list Anchor) :
  forall index newsItems,
    forEach_anchor Date_parse now articleElements index newsItems
    = newsItems ++ collect Date_parse now articleElements index.
Proof.
  induction articleElements as [|a rest IH]; intros index newsItems; simpl.
  - now rewrite app_nil_r.
  - rewrite IH. destruct (parse_anchor Date_parse now a index); [|reflexivity].
    unfold push. now rewrite <- app_assoc.
Qed.

Lemma parse_anchors_collect Date_parse now (articleElements : list Anchor) :
  parse_anchors Date_parse now articleElements
  = collect Date_parse now articleElements 0.
Proof. unfold parse_anchors. now rewrite forEach_anchor_collect. Qed.























Definition anchor_title (a : Anchor) : string := JS.trim (textContent a).

Definition long_enough (t : string) : bool := (3 <? String.length t)%nat.

Lemma parse_anchor_title Date_parse now (a : Anchor) (i : nat) :
  option_map title (parse_anchor Date_parse now a i)
  = if long_enough (anchor_title a) then Some (anchor_title a) else None.
Proof.
  unfold parse_anchor, long_enough, anchor_title.
  destruct (JS.trim (textContent a)) as [|c t] eqn:E; [reflexivity|].
  cbn [JS.truthy String.eqb negb andb].
  destruct (3 <? String.length (String c t))%nat; reflexivity.
Qed.

Lemma collect_titles Date_parse now (articleElements : list Anchor) :
  forall index,
    map title (collect Date_parse now articleElements index)
    = filter long_enough (map anchor_title articleElements).
Proof.
  induction articleElements as [|a rest IH]; intros index; simpl; [reflexivity|].
  pose proof (parse_anchor_title Date_parse now a index) as H.
  destruct (parse_anchor Date_parse now a index) as [r|];
    destruct (long_enough (anchor_title a)); simpl in H; try discriminate.
  - injection H as H. simpl. now rewrite H, IH.
  - apply IH.
Qed.

(** X5.  The titles of the records of an extraction are the trimmed texts of
    the matched anchors that have more than three characters, in document
    order: an anchor is dropped exactly when its trimmed text has three
    characters or fewer, and nothing else is dropped or reordered. *)
Theorem parse_anchors_titles
    (Date_parse : string -> JSNumber) (now : Z) (articleElements : list Anchor) :
  map title (parse_anchors Date_parse now articleElements)
  = filter long_enough (map anchor_title articleElements)
  /\ (List.length (parse_anchors Date_parse now articleElements)
      <= List.length articleElements)%nat
  /\ (forall a i,
        parse_anchor Date_parse now a i = None
        <-> (String.length (JS.trim (textContent a)) <= 3)%nat).
Proof.
  rewrite parse_anchors_collect. split; [apply collect_titles|]. split.
  - rewrite <- (length_map title), collect_titles.
    rewrite <- (length_map anchor_title articleElements). apply filter_length_le.
  - intros a i. pose proof (parse_anchor_title Date_parse now a i) as H.
    unfold long_enough, anchor_title in H.
    destruct (3 <? String.length (JS.trim (textContent a)))%nat eqn:E.
    + apply Nat.ltb_lt in E.
      destruct (parse_anchor Date_parse now a i); [|discriminate].
      split; [discriminate|lia].
    + apply Nat.ltb_ge in E.
      destruct (parse_anchor Date_parse now a i); [discriminate|]. now split.
Qed.

(** A record without its timestamp. *)
Definition timeless (r : NewsItem) : NewsItem :=
  mkNewsItem (id r) (title r) (url r) (date r) (source r) (excerpt r) (Num 0).

Lemma parse_anchor_timeless D1 now1 D2 now2 (a : Anchor) (i : nat) :
  option_map timeless (parse_anchor D1 now1 a i)
  = option_map timeless (parse_anchor D2 now2 a i).
Proof.
  unfold parse_anchor.
  destruct (JS.truthy (JS.trim (textContent a))
            && (3 <? String.length (JS.trim (textContent a)))%nat); reflexivity.
Qed.

Lemma collect_timeless D1 now1 D2 now2 (articleElements : list Anchor) :
  forall index,
    map timeless (collect D1 now1 articleElements index)
    = map timeless (collect D2 now2 articleElements index).
Proof.
  induction articleElements as [|a rest IH]; intros index; simpl; [reflexivity|].
  pose proof (parse_anchor_timeless D1 now1 D2 now2 a index) as H.
  destruct (parse_anchor D1 now1 a index) as [r1|];
    destruct (parse_anchor D2 now2 a index) as [r2|]; cbn [option_map] in H;
    try discriminate.
  - assert (Ht : timeless r1 = timeless r2) by congruence.
    cbn [map]. now rewrite Ht, IH.
  - apply IH.
Qed.

Lemma parse_anchors_same_ids D1 now1 D2 now2 (articleElements : list Anchor) :
  map id (parse_anchors D1 now1 articleElements)
  = map id (parse_anchors D2 now2 articleElements).
Proof.
  rewrite !parse_anchors_collect.
  pose proof (collect_timeless D1 now1 D2 now2 articleElements 0) as H.
  apply (f_equal (map id)) in H. rewrite !map_map in H. exact H.
Qed.

(** X6.  Extraction depends on the retrieval time and on the date parser
    through the timestamps only: two extractions of the same anchors agree on
    every other field of every record, and the change detector finds nothing
    between them. *)
Theorem parse_anchors_repeatable
    (D1 D2 : string -> JSNumber) (now1 now2 : Z) (articleElements : list Anchor) :
  map timeless (parse_anchors D1 now1 articleElements)
  = map timeless (parse_anchors D2 now2 articleElements)
  /\ detectChanges (parse_anchors D1 now1 articleElements)
       (parse_anchors D2 now2 articleElements) = [].
Proof.
  split.
  - rewrite !parse_anchors_collect. apply collect_timeless.
  - apply detectChanges_same_ids, parse_anchors_same_ids.
Qed.

(* ------------------------------------------------------------------ *)
(** *** The cycle, continued *)
(* ------------------------------------------------------------------ *)

Definition found_message (newsCount changesCount : nat) : string :=
  ("Found " ++ JS.nat_to_string newsCount ++ " news items, "
   ++ JS.nat_to_string changesCount ++ " changes detected")%string.

Lemma sendNotifications_frame (changes : list Change) (w : World) :
  timers (browser (sendNotifications changes w)) = timers (browser w)
  /\ next_timer_id (browser (sendNotifications changes w)) = next_timer_id (browser w)
  /\ requests (browser (sendNotifications changes w)) = requests (browser w).
Proof.
  unfold sendNotifications.
  destruct (negb (notificationsEnabled (this w)) || (List.length changes =? 0)%nat);
    [now repeat split|].
  destruct (filter _ changes) as [|a [|a' added]]; now repeat split.
Qed.

Section CycleComposition.

Variable Date_parse : string -> JSNumber.
Variable querySelectorAll : string -> list Anchor.
Variable net : Net.Network.

Let fetch := fetchRealNewsData Date_parse querySelectorAll net.
Let cycle := checkForUpdates Date_parse querySelectorAll net.

Lemma checkForUpdates_success (now : Z) (w : World) freshData requests' :
  fetch now (requests (browser w)) = (Normal freshData, requests') ->
  cycle now w
  = let changes := detectChanges (currentNews (this w)) freshData in
    let w1 :=
      addToHistory now (List.length freshData) (List.length changes)
        (saveToStorage now
           (mkWorld (set_currentNews freshData
                       (set_previousNews (currentNews (this w)) (this w)))
              (set_requests requests' (browser w)))) in
    updateStatus (found_message (List.length freshData) (List.length changes)) true
      (if (0 <? List.length changes)%nat then sendNotifications changes w1 else w1).
Proof.
  intros H. unfold cycle, checkForUpdates. fold fetch. now rewrite H.
Qed.

Lemma checkForUpdates_failure (now : Z) (w : World) message requests' :
  fetch now (requests (browser w)) = (Throw message, requests') ->
  cycle now w
  = updateStatus ("Error: " ++ message)%string false
      (mkWorld (this w) (set_requests requests' (browser w))).
Proof.
  intros H. unfold cycle, checkForUpdates. fold fetch. now rewrite H.
Qed.

(** What a successful cycle leaves behind. *)
Lemma checkForUpdates_success_state (now : Z) (w : World) freshData requests' :
  fetch now (requests (browser w)) = (Normal freshData, requests') ->
  let changes := detectChanges (currentNews (this w)) freshData in
  currentNews (this (cycle now w)) = freshData
  /\ previousNews (this (cycle now w)) = currentNews (this w)
  /\ lastCheck (this (cycle now w)) = Some now
  /\ getHistory (cycle now w)
     = firstn 10 (mkHistoryEntry now (List.length freshData) (List.length changes)
                    :: getHistory w)
  /\ status (browser (cycle now w))
     = Some (found_message (List.length freshData) (List.length changes), true)
  /\ requests (browser (cycle now w)) = requests'
  /\ notificationsEnabled (this (cycle now w)) = notificationsEnabled (this w).
Proof.
  intros H changes. rewrite (checkForUpdates_success now w _ _ H). cbv zeta.
  fold changes. set (w0 := saveToStorage _ _).
  set (w1 := addToHistory _ _ _ w0).
  assert (Hh : getHistory w1
               = firstn 10 (mkHistoryEntry now (List.length freshData) (List.length changes)
                              :: getHistory w)).
  { unfold w1. rewrite getHistory_addToHistory. reflexivity. }
  destruct (0 <? List.length changes)%nat.
  - destruct (sendNotifications_raises changes w1) as [Ht [Hl _]].
    destruct (sendNotifications_frame changes w1) as [_ [_ Hr]].
    unfold getHistory in *. simpl. rewrite Ht, Hl, Hr. now repeat split.
  - unfold getHistory in *. simpl. now repeat split.
Qed.

Lemma fetch_succeeds_again (now1 now2 : Z) requests1 requests2 freshData requests1' :
  fetch now1 requests1 = (Normal freshData, requests1') ->
  exists freshData' requests2',
    fetch now2 requests2 = (Normal freshData', requests2')
    /\ map id freshData' = map id freshData
    /\ List.length freshData' = List.length freshData.
Proof.
  intros H1.
  destruct (first_success_split net proxies) as [Hall|[failed [p [rest [Heq [Hf Hp]]]]]].
  - exfalso. unfold fetch, fetchRealNewsData in H1. unfold proxies in Hall, H1.
    destruct (proxy_loop_exhausted Date_parse querySelectorAll net now1 _ _ requests1 Hall)
      as [e He].
    rewrite He in H1. discriminate.
  - destruct (relay_not_failing net p Hp) as [status [html [Hnet Hst]]].
    assert (Hfetch : forall now requests,
      fetch now requests
      = (Normal (parseNewsFromHTML Date_parse querySelectorAll now html),
         requests ++ map request_url (failed ++ [p]))).
    { intros now requests. unfold fetch, fetchRealNewsData. unfold proxies in Heq |- *.
      now rewrite (proxy_loop_first_success Date_parse querySelectorAll net now
                     failed _ _ _ p rest status html Heq Hf Hnet Hst). }
    rewrite Hfetch in H1. injection H1 as <- _.
    exists (parseNewsFromHTML Date_parse querySelectorAll now2 html),
           (requests2 ++ map request_url (failed ++ [p])).
    split; [apply Hfetch|]. unfold parseNewsFromHTML.
    assert (Hids := parse_anchors_same_ids Date_parse now2 Date_parse now1
                      (querySelectorAll html)).
    split; [exact Hids|]. rewrite <- (length_map id), Hids. apply length_map.
Qed.

(** X7.  When a cycle has succeeded and the relays answer the next cycle as
    they answered this one, the next cycle finds the same records, reports
    zero changes in the status line and in the history, and raises no
    notification, whatever time has passed in between. *)
Theorem checkForUpdates_twice_silent (now1 now2 : Z) (w : World) freshData requests' :
  fetch now1 (requests (browser w)) = (Normal freshData, requests') ->
  let w1 := cycle now1 w in
  let w2 := cycle now2 w1 in
  map id (currentNews (this w2)) = map id (currentNews (this w1))
  /\ previousNews (this w2) = currentNews (this w1)
  /\ hd_error (getHistory w2) = Some (mkHistoryEntry now2 (List.length freshData) 0)
  /\ status (browser w2) = Some (found_message (List.length freshData) 0, true)
  /\ notifications (browser w2) = notifications (browser w1).
Proof.
  intros H1 w1 w2.
  destruct (checkForUpdates_success_state now1 w _ _ H1) as [Hc1 [_ [_ [_ [_ [Hr1 _]]]]]].
  fold w1 in Hc1, Hr1.
  destruct (fetch_succeeds_again now1 now2 _ (requests (browser w1)) _ _ H1)
    as [fresh2 [requests2 [H2 [Hids Hlen]]]].
  destruct (checkForUpdates_success_state now2 w1 _ _ H2)
    as [Hc2 [Hp2 [_ [Hh2 [Hs2 _]]]]].
  fold w2 in Hc2, Hp2, Hh2, Hs2.
  assert (Hnone : detectChanges (currentNews (this w1)) fresh2 = []).
  { apply detectChanges_same_ids. now rewrite Hc1. }
  rewrite Hnone in Hh2, Hs2. simpl List.length in Hh2, Hs2. rewrite Hlen in Hh2, Hs2.
  split; [now rewrite Hc2, Hc1|]. split; [exact Hp2|].
  split; [now rewrite Hh2|]. split; [exact Hs2|].
  unfold w2. pose proof (checkForUpdates_raises Date_parse querySelectorAll net now2 w1) as Hn.
  fold cycle in Hn. rewrite Hn. fold fetch. rewrite H2. cbn [fst].
  rewrite Hnone. unfold expected_notifications. simpl.
  rewrite andb_false_r. apply app_nil_r.
Qed.

(** X8.  On a monitor that holds no current records (a new one, or one just
    cleared) a successful cycle reports every fetched record as NEW: the
    history entry counts as many changes as records, and with notifications
    enabled exactly the notification for that many new records is raised. *)
Theorem checkForUpdates_first_cycle (now : Z) (w : World) freshData requests' :
  currentNews (this w) = [] ->
  fetch now (requests (browser w)) = (Normal freshData, requests') ->
  hd_error (getHistory (cycle now w))
  = Some (mkHistoryEntry now (List.length freshData) (List.length freshData))
  /\ previousNews (this (cycle now w)) = []
  /\ notifications (browser (cycle now w))
     = notifications (browser w)
       ++ expected_notifications (notificationsEnabled (this w)) (map new_change freshData)
  /\ filter is_new (map new_change freshData) = map new_change freshData.
Proof.
  intros Hempty H.
  destruct (checkForUpdates_success_state now w _ _ H) as [_ [Hp [_ [Hh _]]]].
  assert (Hall : detectChanges [] freshData = map new_change freshData).
  { rewrite detectChanges_spec. unfold spec_detect.
    rewrite only_in_nil. simpl. apply app_nil_r. }
  rewrite Hempty in Hp, Hh. rewrite Hall, length_map in Hh.
  split; [now rewrite Hh|]. split; [exact Hp|]. split.
  - pose proof (checkForUpdates_raises Date_parse querySelectorAll net now w) as Hn.
    fold cycle fetch in Hn. rewrite Hn, H. cbn [fst]. now rewrite Hempty, Hall.
  - apply filter_map_new.
Qed.

End CycleComposition.

(** A network whose first relay delivers a page. *)
Definition first_relay_up : Net.Network := fun requested =>
  if String.eqb requested (request_url "https://corsproxy.io/?")
  then Net.Responded 200 (Normal "<h3><a href=/next/news/a>...</a></h3>")
  else Net.Rejected "Failed to fetch".

(** The selector finds the three headlines used above. *)
Definition three_headlines : string -> list Anchor :=
  fun _ => [dated_anchor; undated_anchor; misdated_anchor].

Lemma checkForUpdates_twice_silent_witness :
  let w1 := checkForUpdates calendar three_headlines first_relay_up 1000 initial_world in
  let w2 := checkForUpdates calendar three_headlines first_relay_up 5000 w1 in
  hd_error (getHistory w1) = Some (mkHistoryEntry 1000 3 3)
  /\ hd_error (getHistory w2) = Some (mkHistoryEntry 5000 3 0)
  /\ notifications (browser w2) = notifications (browser w1).
Proof.
  intros w1 w2.
  destruct (checkForUpdates_twice_silent calendar three_headlines first_relay_up 1000 5000
              initial_world _ _ eq_refl) as [_ [_ [H2 [_ H3]]]].
  split; [reflexivity|]. exact (conj H2 H3).
Defined.

Lemma checkForUpdates_first_cycle_witness :
  let w1 := checkForUpdates calendar three_headlines first_relay_up 1000 initial_world in
  hd_error (getHistory w1) = Some (mkHistoryEntry 1000 3 3)
  /\ previousNews (this w1) = [].
Proof.
  intros w1.
  destruct (checkForUpdates_first_cycle calendar three_headlines first_relay_up 1000
              initial_world _ _ eq_refl eq_refl) as [H1 [H2 _]].
  exact (conj H1 H2).
Defined.

(* ------------------------------------------------------------------ *)
(** *** Persistence: [saveToStorage], [loadFromStorage], [clearHistory] *)
(* ------------------------------------------------------------------ *)

Definition finite_timestamp (r : NewsItem) : Prop := exists t, timestamp r = Num t.

Lemma JSON_item_finite (l : list NewsItem) :
  Forall finite_timestamp l -> map JSON_item l = l.
Proof.
  induction 1 as [|r l [t Ht] _ IH]; [reflexivity|]. simpl. rewrite IH. f_equal.
  destruct r as [i ti u d s e ts]. simpl in Ht. subst ts. reflexivity.
Qed.

Lemma JSON_item_timeless (l : list NewsItem) :
  map timeless (map JSON_item l) = map timeless l.
Proof. rewrite map_map. apply map_ext. intros r. reflexivity. Qed.

Lemma startAutoCheck_news (w : World) :
  currentNews (this (startAutoCheck w)) = currentNews (this w)
  /\ previousNews (this (startAutoCheck w)) = previousNews (this w)
  /\ lastCheck (this (startAutoCheck w)) = lastCheck (this w)
  /\ autoCheckEnabled (this (startAutoCheck w)) = autoCheckEnabled (this w)
  /\ notificationsEnabled (this (startAutoCheck w)) = notificationsEnabled (this w)
  /\ checkIntervalMinutes (this (startAutoCheck w)) = checkIntervalMinutes (this w)
  /\ notifications (browser (startAutoCheck w)) = notifications (browser w).
Proof.
  unfold startAutoCheck. destruct (autoCheckInterval (this w)); now repeat split.
Qed.

Lemma loadFromStorage_news (w : World) :
  let data := Stored.nola_monitor_data (localStorage (browser w)) in
  currentNews (this (loadFromStorage w))
  = match data with Some d => map JSON_item (Stored.currentNews d) | None => [] end
  /\ previousNews (this (loadFromStorage w))
     = match data with Some d => map JSON_item (Stored.previousNews d) | None => [] end
  /\ lastCheck (this (loadFromStorage w))
     = match data with
       | Some d => if Stored.lastCheck d =? 0 then None else Some (Stored.lastCheck d)
       | None => None
       end.
Proof.
  cbv zeta. unfold loadFromStorage.
  destruct (Stored.nola_monitor_autocheck (localStorage (browser w))) as [[[|] i]|];
    cbn [Stored.enabled].
  - match goal with |- context [startAutoCheck ?x] =>
      destruct (startAutoCheck_news x) as [Hc [Hp [Hl _]]] end.
    rewrite Hc, Hp, Hl.
    destruct (Stored.nola_monitor_data (localStorage (browser w))); now repeat split.
  - destruct (Stored.nola_monitor_data (localStorage (browser w))); now repeat split.
  - destruct (Stored.nola_monitor_data (localStorage (browser w))); now repeat split.
Qed.

(** X9.  What [saveToStorage] writes, a later page load reads back: the new
    monitor holds the saved current and previous generations, with every
    field of every record as saved except that a [NaN] timestamp has become
    0, and the time of the save as the time of the last check.  Generations
    whose timestamps are all numbers come back unchanged, and in any case the
    change detector finds nothing between what was saved and what was read. *)
Theorem saveToStorage_reload (now : Z) (w : World) :
  let w' := reload (saveToStorage now w) in
  currentNews (this w') = map JSON_item (currentNews (this w))
  /\ previousNews (this w') = map JSON_item (previousNews (this w))
  /\ lastCheck (this w') = (if now =? 0 then None else Some now)
  /\ map timeless (currentNews (this w')) = map timeless (currentNews (this w))
  /\ detectChanges (currentNews (this w)) (currentNews (this w')) = []
  /\ (Forall finite_timestamp (currentNews (this w)) ->
      currentNews (this w') = currentNews (this w))
  /\ (Forall finite_timestamp (previousNews (this w)) ->
      previousNews (this w') = previousNews (this w)).
Proof.
  cbv zeta. unfold reload, open_page.
  match goal with |- context [loadFromStorage ?x] =>
    destruct (loadFromStorage_news x) as [Hc [Hp Hl]] end.
  rewrite Hc, Hp, Hl. clear Hc Hp Hl.
  change (Stored.nola_monitor_data _)
    with (Some (Stored.mkData now (currentNews (this w)) (previousNews (this w)))).
  cbn [Stored.currentNews Stored.previousNews Stored.lastCheck].
  split; [reflexivity|]. split; [reflexivity|]. split; [reflexivity|].
  split; [apply JSON_item_timeless|]. split.
  - apply detectChanges_same_ids. rewrite map_map. now apply map_ext.
  - split; apply JSON_item_finite.
Qed.

Lemma saveToStorage_reload_witness :
  let w := world_after_a_cycle in
  currentNews (this (reload (saveToStorage 2000 w))) = [sample_item "a"; sample_item "b"]
  /\ previousNews (this (reload (saveToStorage 2000 w))) = [sample_item "a"]
  /\ lastCheck (this (reload (saveToStorage 2000 w))) = Some 2000.
Proof.
  intros w.
  destruct (saveToStorage_reload 2000 w) as [_ [_ [Hl [_ [_ [Hc Hp]]]]]].
  split; [|split; [|exact Hl]].
  - apply Hc. repeat constructor; now exists 0.
  - apply Hp. repeat constructor; now exists 0.
Defined.

Lemma open_page_auto_check (storage : Stored.LocalStorage) :
  let w := open_page storage in
  autoCheckEnabled (this w) = false
  /\ notificationsEnabled (this w) = false
  /\ notifications (browser w) = []
  /\ match Stored.nola_monitor_autocheck storage with
     | Some (Stored.mkAutoCheck true i) =>
         checkIntervalMinutes (this w) = number_or (JSON_number i) (Num 15)
         /\ autoCheckInterval (this w) = Some 1%positive
         /\ timers (browser w)
            = [mkTimer 1%positive
                 (mulN (mulN (number_or (JSON_number i) (Num 15)) (Num 60)) (Num 1000))]
     | _ =>
         checkIntervalMinutes (this w) = Num 15
         /\ autoCheckInterval (this w) = None
         /\ timers (browser w) = []
     end.
Proof.
  cbv zeta. unfold open_page, loadFromStorage. cbn [browser localStorage this].
  destruct (Stored.nola_monitor_autocheck storage) as [[[|] i]|]; cbn [Stored.enabled];
    destruct (Stored.nola_monitor_data storage); now repeat split.
Qed.

(** X10.  Auto-check survives a page load exactly when it was on: after
    [startAutoCheck] a reload arms one timer, with the stored period (15
    minutes if the stored period is 0 or not a number); after [stopAutoCheck]
    a reload arms none and the period is back at 15 minutes, whatever it was.
    In both cases the new monitor's [autoCheckEnabled] is off. *)
Theorem reload_resumes_auto_check (w : World) :
  let period := number_or (JSON_number (checkIntervalMinutes (this w))) (Num 15) in
  let resumed := reload (startAutoCheck w) in
  let stopped := reload (stopAutoCheck w) in
  timers (browser resumed) = [mkTimer 1%positive (mulN (mulN period (Num 60)) (Num 1000))]
  /\ autoCheckInterval (this resumed) = Some 1%positive
  /\ checkIntervalMinutes (this resumed) = period
  /\ autoCheckEnabled (this resumed) = false
  /\ timers (browser stopped) = []
  /\ autoCheckInterval (this stopped) = None
  /\ checkIntervalMinutes (this stopped) = Num 15
  /\ autoCheckEnabled (this stopped) = false.
Proof.
  cbv zeta. unfold reload.
  pose proof (open_page_auto_check (localStorage (browser (startAutoCheck w)))) as Hs.
  pose proof (open_page_auto_check (localStorage (browser (stopAutoCheck w)))) as Ht.
  cbv zeta in Hs, Ht.
  assert (Es : Stored.nola_monitor_autocheck (localStorage (browser (startAutoCheck w)))
               = Some (Stored.mkAutoCheck true (checkIntervalMinutes (this w)))).
  { unfold startAutoCheck. destruct (autoCheckInterval (this w)); reflexivity. }
  assert (Et : Stored.nola_monitor_autocheck (localStorage (browser (stopAutoCheck w)))
               = Some (Stored.mkAutoCheck false (checkIntervalMinutes (this w)))).
  { unfold stopAutoCheck. destruct (autoCheckInterval (this w)); reflexivity. }
  rewrite Es in Hs. rewrite Et in Ht.
  destruct Hs as [Hs1 [_ [_ [Hs2 [Hs3 Hs4]]]]].
  destruct Ht as [Ht1 [_ [_ [Ht2 [Ht3 Ht4]]]]].
  now repeat split.
Qed.

Definition empty_storage : Stored.LocalStorage := Stored.mkLocalStorage None None None.

(** X11.  [clearHistory] does nothing when the dialog is declined.  When it is
    confirmed, the three storage keys are removed, both generations are
    emptied and the time of the last check is forgotten, while the active
    keywords are kept; a page load after it gives a new monitor.  With
    [autoCheckEnabled] off, the armed timer and its handle are left as they
    are. *)
Theorem clearHistory_resets (w : World) :
  clearHistory false w = w
  /\ localStorage (browser (clearHistory true w)) = empty_storage
  /\ getHistory (clearHistory true w) = []
  /\ currentNews (this (clearHistory true w)) = []
  /\ previousNews (this (clearHistory true w)) = []
  /\ lastCheck (this (clearHistory true w)) = None
  /\ activeKeywords (this (clearHistory true w)) = activeKeywords (this w)
  /\ reload (clearHistory true w) = initial_world
  /\ (autoCheckEnabled (this w) = false ->
      timers (browser (clearHistory true w)) = timers (browser w)
      /\ autoCheckInterval (this (clearHistory true w)) = autoCheckInterval (this w)).
Proof.
  split; [reflexivity|].
  assert (Hs : localStorage (browser (clearHistory true w)) = empty_storage).
  { unfold clearHistory. destruct (autoCheckEnabled (this w)); reflexivity. }
  split; [exact Hs|]. split; [unfold getHistory; now rewrite Hs|].
  unfold reload. rewrite Hs.
  unfold clearHistory.
  destruct (autoCheckEnabled (this w)) eqn:E.
  - unfold stopAutoCheck. destruct (autoCheckInterval (this w));
      repeat split; discriminate.
  - now repeat split.
Qed.

Lemma clearHistory_witness :
  let w := startAutoCheck world_after_a_cycle in
  timers (browser (clearHistory true w)) = [mkTimer 1%positive (Num 900000)]
  /\ autoCheckInterval (this (clearHistory true w)) = Some 1%positive.
Proof.
  intros w.
  destruct (clearHistory_resets w) as [_ [_ [_ [_ [_ [_ [_ [_ H]]]]]]]].
  exact (H eq_refl).
Defined.

(* ------------------------------------------------------------------ *)
(** *** What the page can make the monitor do *)
(* ------------------------------------------------------------------ *)

(** The events that [setupEventListeners], the timer and the browser deliver
    to the monitor.  A cycle is taken to have finished before the next event
    arrives. *)
Inductive Action : Type :=
| CheckNow (net : Net.Network) (now : Z)   (* the check button, or the timer firing *)
| ClickAutoCheck                           (* the auto-check button *)
| SelectInterval (minutes : string)        (* the interval selector *)
| ClickClear (confirmed : bool)            (* the clear button and its dialog *)
| ClickKeyword (keyword : string)          (* a filter tag *)
| ReloadPage.

Section Reachable.

Variable Date_parse : string -> JSNumber.
Variable querySelectorAll : string -> list Anchor.

Definition perform (w : World) (a : Action) : World :=
  match a with
  | CheckNow net now => checkForUpdates Date_parse querySelectorAll net now w
  | ClickAutoCheck => toggleAutoCheck w
  | SelectInterval minutes => setCheckInterval minutes w
  | ClickClear confirmed => clearHistory confirmed w
  | ClickKeyword keyword => toggleKeyword keyword w
  | ReloadPage => reload w
  end.

Definition perform_all (actions : list Action) (w : World) : World :=
  fold_left perform actions w.

(** What holds of the monitor whatever the page has made it do. *)
Definition as_wired (w : World) : Prop :=
  autoCheckEnabled (this w) = false
  /\ notificationsEnabled (this w) = false
  /\ notifications (browser w) = []
  /\ only_own_timer w.

Lemma checkForUpdates_scheduler_frame net now (w : World) :
  let w' := checkForUpdates Date_parse querySelectorAll net now w in
  autoCheckEnabled (this w') = autoCheckEnabled (this w)
  /\ notificationsEnabled (this w') = notificationsEnabled (this w)
  /\ autoCheckInterval (this w') = autoCheckInterval (this w)
  /\ timers (browser w') = timers (browser w).
Proof.
  cbv zeta. unfold checkForUpdates.
  destruct (fetchRealNewsData Date_parse querySelectorAll net now (requests (browser w)))
    as [[freshData|message] requests']; [|now repeat split].
  cbv zeta. set (changes := detectChanges _ _). set (w1 := addToHistory _ _ _ _).
  destruct (0 <? List.length changes)%nat; [|now repeat split].
  destruct (sendNotifications_raises changes w1) as [Ht _].
  destruct (sendNotifications_frame changes w1) as [Hti _].
  cbn [updateStatus this browser set_status timers]. rewrite Ht, Hti. now repeat split.
Qed.

Lemma only_own_timer_frame (w w' : World) :
  autoCheckInterval (this w') = autoCheckInterval (this w) ->
  timers (browser w') = timers (browser w) ->
  only_own_timer w -> only_own_timer w'.
Proof. unfold only_own_timer. now intros -> ->. Qed.

Lemma perform_as_wired (a : Action) (w : World) : as_wired w -> as_wired (perform w a).
Proof.
  intros [Hflag [Hnote [Hnone Hown]]]. destruct a as [net now| |minutes|confirmed|keyword|];
    cbn [perform].
  - destruct (checkForUpdates_scheduler_frame net now w) as [Ha [Hn [Hi Ht]]].
    cbv zeta in Ha, Hn, Hi, Ht.
    split; [congruence|]. split; [congruence|]. split.
    + rewrite (checkForUpdates_raises Date_parse querySelectorAll net now w).
      rewrite Hnone, Hnote. cbn [app].
      destruct (fst _); [|reflexivity]. reflexivity.
    + now apply (only_own_timer_frame w).
  - unfold toggleAutoCheck. rewrite Hflag.
    destruct (startAutoCheck_news w) as [_ [_ [_ [Ha [Hn [_ Hno]]]]]].
    split; [congruence|]. split; [congruence|]. split; [congruence|].
    now apply startAutoCheck_only_own_timer.
  - unfold setCheckInterval. cbn [this autoCheckEnabled set_checkIntervalMinutes].
    rewrite Hflag. now repeat split.
  - destruct confirmed; [|now repeat split].
    unfold clearHistory. rewrite Hflag. now repeat split.
  - unfold toggleKeyword.
    destruct (StringSet.has (activeKeywords (this w)) keyword); now repeat split.
  - unfold reload.
    pose proof (open_page_auto_check (localStorage (browser w))) as H. cbv zeta in H.
    destruct H as [Ha [Hn [Hno H]]].
    split; [exact Ha|]. split; [exact Hn|]. split; [exact Hno|].
    unfold only_own_timer.
    destruct (Stored.nola_monitor_autocheck (localStorage (browser w))) as [[[|] i]|];
      destruct H as [_ [-> ->]]; eauto.
Qed.

Lemma open_page_as_wired (storage : Stored.LocalStorage) : as_wired (open_page storage).
Proof.
  pose proof (open_page_auto_check storage) as H. cbv zeta in H.
  destruct H as [Ha [Hn [Hno H]]].
  split; [exact Ha|]. split; [exact Hn|]. split; [exact Hno|].
  unfold only_own_timer.
  destruct (Stored.nola_monitor_autocheck storage) as [[[|] i]|];
    destruct H as [_ [-> ->]]; eauto.
Qed.

Lemma perform_all_as_wired (actions : list Action) :
  forall w, as_wired w -> as_wired (perform_all actions w).
Proof.
  induction actions as [|a actions IH]; intros w Hw; [exact Hw|].
  simpl. apply IH. now apply perform_as_wired.
Qed.

(** X12.  Whatever was stored when the page was opened and whatever the user
    and the timer have done since, [autoCheckEnabled] is off and at most one
    timer is armed, the one whose handle the monitor holds.  The auto-check
    button therefore never stops auto-check: every click re-arms it, leaving
    one timer with the current period. *)
Theorem auto_check_button_never_stops
    (storage : Stored.LocalStorage) (actions : list Action) :
  let w := perform_all actions (open_page storage) in
  autoCheckEnabled (this w) = false
  /\ only_own_timer w
  /\ (List.length (timers (browser w)) <= 1)%nat
  /\ toggleAutoCheck w = startAutoCheck w
  /\ timers (browser (toggleAutoCheck w))
     = [mkTimer (next_timer_id (browser w)) (interval_ms w)].
Proof.
  intros w.
  destruct (perform_all_as_wired actions _ (open_page_as_wired storage))
    as [Hflag [_ [_ Hown]]]. fold w in Hflag, Hown.
  split; [exact Hflag|]. split; [exact Hown|].
  split; [now apply only_own_timer_at_most_one|].
  assert (Ht : toggleAutoCheck w = startAutoCheck w)
    by (unfold toggleAutoCheck; now rewrite Hflag).
  split; [exact Ht|]. rewrite Ht.
  destruct (startAutoCheck_timers w) as [_ Hs]. rewrite Hs.
  unfold only_own_timer in Hown. destruct (autoCheckInterval (this w)).
  - destruct Hown as [d ->]. simpl. now rewrite Pos.eqb_refl.
  - now rewrite Hown.
Qed.

(** X13.  Whatever was stored when the page was opened and whatever the user
    and the timer have done since, notifications are not enabled and none has
    been raised: nothing that the page is wired to calls
    [requestNotificationPermission], the only method that enables them. *)
Theorem notifications_never_raised
    (storage : Stored.LocalStorage) (actions : list Action) :
  let w := perform_all actions (open_page storage) in
  notificationsEnabled (this w) = false
  /\ notifications (browser w) = []
  /\ (forall changes, sendNotifications changes w = w).
Proof.
  intros w.
  destruct (perform_all_as_wired actions _ (open_page_as_wired storage))
    as [_ [Hnote [Hnone _]]]. fold w in Hnote, Hnone.
  split; [exact Hnote|]. split; [exact Hnone|].
  intros changes. unfold sendNotifications. now rewrite Hnote.
Qed.

End Reachable.

(* ------------------------------------------------------------------ *)
(** *** Keywords *)
(* ------------------------------------------------------------------ *)

Lemma StringSet_has_In (set : list string) (x : string) :
  StringSet.has set x = true <-> In x set.
Proof.
  unfold StringSet.has. rewrite existsb_exists. split.
  - intros [y [Hy He]]. apply String.eqb_eq in He. now subst y.
  - intros H. exists x. split; [exact H|apply String.eqb_refl].
Qed.

Lemma StringSet_delete_In (set : list string) (x y : string) :
  In y (StringSet.delete set x) <-> In y set /\ y <> x.
Proof.
  unfold StringSet.delete. rewrite filter_In, negb_true_iff, String.eqb_neq.
  split; intros [H1 H2]; split; congruence.
Qed.

Definition active_after_toggle (keyword : string) (w : World) : list string :=
  activeKeywords (this (toggleKeyword keyword w)).

Lemma toggleKeyword_active (keyword : string) (w : World) :
  active_after_toggle keyword w
  = if StringSet.has (activeKeywords (this w)) keyword
    then StringSet.delete (activeKeywords (this w)) keyword
    else activeKeywords (this w) ++ [keyword].
Proof.
  unfold active_after_toggle, toggleKeyword, StringSet.add.
  destruct (StringSet.has (activeKeywords (this w)) keyword) eqn:E; reflexivity.
Qed.

Lemma toggleKeyword_In (keyword : string) (w : World) (x : string) :
  In x (active_after_toggle keyword w)
  <-> (x <> keyword /\ In x (activeKeywords (this w)))
      \/ (x = keyword /\ ~ In keyword (activeKeywords (this w))).
Proof.
  rewrite toggleKeyword_active.
  destruct (StringSet.has (activeKeywords (this w)) keyword) eqn:E.
  - apply StringSet_has_In in E. rewrite StringSet_delete_In. split.
    + intros [H1 H2]. now left.
    + intros [[H1 H2]|[-> H2]]; [now split|contradiction].
  - assert (Hn : ~ In keyword (activeKeywords (this w))).
    { intros H. apply StringSet_has_In in H. congruence. }
    rewrite in_app_iff. simpl. split.
    + intros [H|[<-|[]]]; [|now right].
      left. split; [|exact H]. intros ->. contradiction.
    + intros [[H1 H2]|[-> H2]]; [now left|right; now left].
Qed.

(** X14.  [toggleKeyword] switches one keyword and no other: afterwards the
    keyword is active exactly if it was not before, and every other keyword is
    active exactly if it was before.  A keyword switched on goes to the end of
    the set; a set without repetition stays without repetition; switching
    twice gives back the same active keywords (possibly in another order).
    Nothing but the set of active keywords changes: the browser is as it was,
    and so is every other field of the monitor. *)
Theorem toggleKeyword_switches_one (keyword : string) (w : World) :
  let before := activeKeywords (this w) in
  let after := activeKeywords (this (toggleKeyword keyword w)) in
  (In keyword after <-> ~ In keyword before)
  /\ (forall x, x <> keyword -> (In x after <-> In x before))
  /\ (~ In keyword before -> after = before ++ [keyword])
  /\ (NoDup before -> NoDup after)
  /\ (forall x,
        In x (activeKeywords (this (toggleKeyword keyword (toggleKeyword keyword w))))
        <-> In x before)
  /\ browser (toggleKeyword keyword w) = browser w
  /\ set_activeKeywords before (this (toggleKeyword keyword w)) = this w
  /\ currentNews (this (toggleKeyword keyword w)) = currentNews (this w)
  /\ previousNews (this (toggleKeyword keyword w)) = previousNews (this w).
Proof.
  cbv zeta. fold (active_after_toggle keyword w).
  fold (active_after_toggle keyword (toggleKeyword keyword w)).
  split; [|split; [|split; [|split; [|split]]]].
  - rewrite toggleKeyword_In. split.
    + intros [[H _]|[_ H]]; [contradiction|exact H].
    + intros H. now right.
  - intros x Hx. rewrite toggleKeyword_In. split.
    + intros [[_ H]|[H _]]; [exact H|contradiction].
    + intros H. now left.
  - intros Hn. rewrite toggleKeyword_active.
    destruct (StringSet.has (activeKeywords (this w)) keyword) eqn:E; [|reflexivity].
    apply StringSet_has_In in E. contradiction.
  - intros Hnd. rewrite toggleKeyword_active.
    destruct (StringSet.has (activeKeywords (this w)) keyword) eqn:E.
    + now apply NoDup_filter.
    + apply NoDup_app; [exact Hnd|repeat constructor; intros []|].
      intros x Hx [<-|[]]. apply StringSet_has_In in Hx. congruence.
  - intros x. rewrite toggleKeyword_In.
    fold (active_after_toggle keyword w). rewrite !toggleKeyword_In.
    destruct (string_dec x keyword) as [->|Hx];
      destruct (in_dec string_dec keyword (activeKeywords (this w))) as [Hk|Hk];
      intuition congruence.
  - unfold toggleKeyword. destruct w as [m b]. destruct m.
    destruct (StringSet.has _ keyword); now repeat split.
Qed.

Lemma toggleKeyword_witness :
  activeKeywords (this (toggleKeyword "zoning" initial_world))
  = ["budget"; "police"; "housing"; "development"; "mayor"; "council"; "zoning"]
  /\ NoDup (activeKeywords (this (toggleKeyword "police" initial_world))).
Proof.
  destruct (toggleKeyword_switches_one "zoning" initial_world) as [_ [_ [Happend _]]].
  destruct (toggleKeyword_switches_one "police" initial_world) as [_ [_ [_ [Hnodup _]]]].
  split.
  - apply Happend. simpl. intros H.
    repeat (destruct H as [H|H]; [discriminate|]). exact H.
  - apply Hnodup. simpl.
    repeat (constructor; [simpl; intros H;
      repeat (destruct H as [H|H]; [discriminate|]); exact H|]).
    constructor.
Defined.

Definition item_text (item : NewsItem) : string :=
  JS.toLowerCase (title item ++ " " ++ excerpt item)%string.

Definition mentions (item : NewsItem) (keyword : string) : bool :=
  JS.includes (item_text item) (JS.toLowerCase keyword).

Lemma filter_comm {A} (f g : A -> bool) (l : list A) :
  filter f (filter g l) = filter g (filter f l).
Proof.
  induction l as [|a l IH]; [reflexivity|]. simpl.
  destruct (f a) eqn:Ef; destruct (g a) eqn:Eg; simpl; rewrite ?Ef, ?Eg, IH; reflexivity.
Qed.

(** X15.  The keywords [findKeywords] returns are active keywords that occur
    in the lower-cased title and excerpt, in the order of the active set.
    Switching a keyword off with [toggleKeyword] removes it, and nothing else,
    from the keywords found for every record; switching a keyword on adds it,
    at the end, for exactly the records that mention it. *)
Theorem findKeywords_after_toggle (keyword : string) (w : World) (item : NewsItem) :
  let before := activeKeywords (this w) in
  let after := activeKeywords (this (toggleKeyword keyword w)) in
  (forall k, In k (findKeywords before item) <-> In k before /\ mentions item k = true)
  /\ (In keyword before ->
      findKeywords after item
      = filter (fun k => negb (String.eqb keyword k)) (findKeywords before item)
      /\ ~ In keyword (findKeywords after item))
  /\ (~ In keyword before ->
      findKeywords after item
      = findKeywords before item ++ (if mentions item keyword then [keyword] else [])).
Proof.
  cbv zeta. fold (active_after_toggle keyword w). rewrite toggleKeyword_active.
  unfold findKeywords. fold (item_text item).
  change (fun k => JS.includes (item_text item) (JS.toLowerCase k)) with (mentions item).
  split; [intros k; apply filter_In|]. split.
  - intros Hin. apply StringSet_has_In in Hin. rewrite Hin. unfold StringSet.delete.
    split; [apply filter_comm|].
    rewrite filter_In, filter_In. intros [[_ H] _].
    rewrite String.eqb_refl in H. discriminate.
  - intros Hn.
    destruct (StringSet.has (activeKeywords (this w)) keyword) eqn:E;
      [apply StringSet_has_In in E; contradiction|].
    rewrite filter_app. reflexivity.
Qed.

Lemma findKeywords_after_toggle_witness :
  let item := mkNewsItem "a" "Council approves POLICE budget" "https://nola.gov/a" "Recent"
                "City of New Orleans" "No description available" (Num 0) in
  findKeywords keywords item = ["budget"; "police"; "council"]
  /\ findKeywords (activeKeywords (this (toggleKeyword "police" initial_world))) item
     = ["budget"; "council"]
  /\ findKeywords (activeKeywords (this (toggleKeyword "approves" initial_world))) item
     = ["budget"; "police"; "council"; "approves"].
Proof.
  intros item.
  destruct (findKeywords_after_toggle "police" initial_world item) as [_ [Hoff _]].
  destruct (findKeywords_after_toggle "approves" initial_world item) as [_ [_ Hon]].
  split; [reflexivity|]. split.
  - apply Hoff. simpl. tauto.
  - apply Hon. simpl. intros H.
    repeat (destruct H as [H|H]; [discriminate|]). exact H.
Defined.

(* ------------------------------------------------------------------ *)
(** *** Relevance scorer, continued *)
(* ------------------------------------------------------------------ *)

From Stdlib Require Import Lqa.

Lemma recency_bonus_range (now : Z) (t : JSNumber) :
  (0 <= recency_bonus now t <= 1)%Q.
Proof.
  unfold recency_bonus. destruct t as [t|]; [|lra].
  destruct (now - t <? SIX_HOURS); [lra|].
  destruct (now - t <? ONE_DAY); lra.
Qed.

Lemma bonus_range (applies : bool) (points : Q) :
  (0 <= points)%Q -> (0 <= bonus applies points <= points)%Q.
Proof. intros H. unfold bonus. destruct applies; lra. Qed.

Lemma Math_round_ge (x : Q) (n : Z) :
  (inject_Z n - (1 # 2) <= x)%Q -> n <= Math_round x.
Proof.
  intros H. unfold Math_round. rewrite <- (Qfloor_Z n). apply Qfloor_resp_le. lra.
Qed.

Lemma Math_round_le (x : Q) (n : Z) :
  (x < inject_Z n + (1 # 2))%Q -> Math_round x <= n.
Proof.
  intros H. unfold Math_round.
  assert (Hlt : (inject_Z (Qfloor (x + (1 # 2))) < inject_Z (n + 1))%Q).
  { pose proof (Qfloor_le (x + (1 # 2))) as Hf. rewrite inject_Z_plus.
    change (inject_Z 1) with 1%Q. lra. }
  rewrite <- Zlt_Qlt in Hlt. lia.
Qed.

Lemma level_of_score (now : Z) (item : NewsItem) (kws : list string) :
  level (calculateNewsworthiness now item kws)
  = if 4 <=? score (calculateNewsworthiness now item kws) then "high"
    else if 3 <=? score (calculateNewsworthiness now item kws) then "medium" else "low".
Proof. reflexivity. Qed.

(** X16.  Two matched keywords are enough for the level "high" and three for
    the top score 5, whatever the rest of the record; a record whose source
    contains "City of New Orleans" never scores below 2; a record with no
    matched keyword, no "Mayor" in its source and none of the four indicator
    words in its title never scores above 3, so it is never "high". *)
Theorem calculateNewsworthiness_thresholds
    (now : Z) (item : NewsItem) (kws : list string) :
  let r := calculateNewsworthiness now item kws in
  let lowered := JS.toLowerCase (title item) in
  ((2 <= List.length kws)%nat -> 4 <= score r /\ level r = "high")
  /\ ((3 <= List.length kws)%nat -> score r = 5)
  /\ (JS.includes (source item) "City of New Orleans" = true -> 2 <= score r)
  /\ (kws = [] ->
      JS.includes (source item) "Mayor" = false ->
      JS.includes lowered "breaking" || JS.includes lowered "emergency" = false ->
      JS.includes lowered "budget" || JS.includes lowered "council" = false ->
      score r <= 3 /\ level r <> "high").
Proof.
  intros r lowered.
  assert (Hs : score r = clamp 1 5 (Math_round (spec_raw_score now item (List.length kws))))
    by apply calculateNewsworthiness_score.
  pose proof (level_of_score now item kws) as Hl. fold r in Hl.
  pose proof (recency_bonus_range now (timestamp item)) as Hr.
  pose proof (bonus_range (JS.includes (source item) "Mayor") 1) as Hm.
  pose proof (bonus_range (JS.includes (source item) "City of New Orleans") (1 # 2)) as Hc.
  pose proof (bonus_range (JS.includes lowered "breaking" || JS.includes lowered "emergency") 2)
    as Hb.
  pose proof (bonus_range (JS.includes lowered "budget" || JS.includes lowered "council") 1)
    as Hu.
  assert (Hraw : spec_raw_score now item (List.length kws)
                 = (1 + (3 # 2) * inject_Z (Z.of_nat (List.length kws))
                    + (bonus (JS.includes (source item) "Mayor") 1
                       + bonus (JS.includes (source item) "City of New Orleans") (1 # 2)
                       + bonus (JS.includes lowered "breaking"
                                || JS.includes lowered "emergency") 2
                       + bonus (JS.includes lowered "budget"
                                || JS.includes lowered "council") 1
                       + recency_bonus now (timestamp item)))%Q) by reflexivity.
  set (raw := spec_raw_score now item (List.length kws)) in *.
  assert (Hk : forall k : Z, k <= Z.of_nat (List.length kws) ->
            (inject_Z k <= inject_Z (Z.of_nat (List.length kws)))%Q)
    by (intros k Hle; now rewrite <- Zle_Qle).
  unfold clamp in Hs.
  split; [|split; [|split]].
  - intros H2. assert (H4 : 4 <= score r).
    { assert (4 <= Math_round raw); [|lia].
      apply Math_round_ge. rewrite Hraw. specialize (Hk 2 ltac:(lia)).
      change (inject_Z 2) with 2%Q in Hk. change (inject_Z 4) with 4%Q. lra. }
    split; [exact H4|]. rewrite Hl. apply Z.leb_le in H4. now rewrite H4.
  - intros H3. assert (6 <= Math_round raw); [|lia].
    apply Math_round_ge. rewrite Hraw. specialize (Hk 3 ltac:(lia)).
    change (inject_Z 3) with 3%Q in Hk. change (inject_Z 6) with 6%Q. lra.
  - intros Hcity. assert (2 <= Math_round raw); [|lia].
    apply Math_round_ge. rewrite Hraw. specialize (Hk 0 ltac:(lia)).
    change (inject_Z 0) with 0%Q in Hk. change (inject_Z 2) with 2%Q.
    rewrite Hcity in *. unfold bonus at 2. lra.
  - intros Hnil Hmayor Hbreak Hbudget.
    assert (H3 : score r <= 3).
    { assert (Math_round raw <= 3); [|lia].
      apply Math_round_le. rewrite Hraw. rewrite Hnil, Hmayor, Hbreak, Hbudget.
      unfold bonus at 1 3 4. change (inject_Z (Z.of_nat (List.length []))) with 0%Q.
      change (inject_Z 3) with 3%Q. lra. }
    split; [exact H3|]. rewrite Hl.
    destruct (4 <=? score r) eqn:E; [apply Z.leb_le in E; lia|].
    destruct (3 <=? score r); discriminate.
Qed.

Lemma calculateNewsworthiness_thresholds_witness :
  let item := mkNewsItem "a" "Council approves police budget" "https://nola.gov/a" "Recent"
                "City of New Orleans" "No description available" (Num 0) in
  let quiet := mkNewsItem "b" "Road closure notice" "https://nola.gov/b" "Recent"
                 "City of New Orleans" "No description available" NaN in
  score (calculateNewsworthiness 1754524800000 item (findKeywords keywords item)) = 5
  /\ level (calculateNewsworthiness 1754524800000 item ["budget"; "police"]) = "high"
  /\ 2 <= score (calculateNewsworthiness 1754524800000 quiet (findKeywords keywords quiet))
  /\ score (calculateNewsworthiness 1754524800000 quiet (findKeywords keywords quiet)) <= 3.
Proof.
  intros item quiet.
  destruct (calculateNewsworthiness_thresholds 1754524800000 item (findKeywords keywords item))
    as [_ [H5 _]].
  destruct (calculateNewsworthiness_thresholds 1754524800000 item ["budget"; "police"])
    as [H4 _].
  destruct (calculateNewsworthiness_thresholds 1754524800000 quiet (findKeywords keywords quiet))
    as [_ [_ [H2 H3]]].
  split; [apply H5; simpl; lia|]. split; [apply H4; simpl; lia|].
  split; [now apply H2|]. now apply H3.
Defined.

(* ------------------------------------------------------------------ *)
(** *** Notification permission *)
(* ------------------------------------------------------------------ *)

(** The permission in force after the call. *)
Definition permission_after (permission answer : Permission) : Permission :=
  match permission with
  | Default => answer
  | _ => permission
  end.

(** X17.  [requestNotificationPermission] asks the user only while the
    permission is still undecided, and leaves notifications enabled exactly
    when the permission then in force is "granted"; it changes nothing else,
    and nothing at all in a browser without the Notification API.  Once the
    permission is decided, calling it again neither asks nor changes the
    monitor. *)
Theorem requestNotificationPermission_follows_permission
    (permission answer : Permission) (w : World) :
  let w' := fst (requestNotificationPermission (Some permission) answer w) in
  let asked := snd (requestNotificationPermission (Some permission) answer w) in
  (asked = true <-> permission = Default)
  /\ (notificationsEnabled (this w') = true
      <-> permission_after permission answer = Granted)
  /\ browser w' = browser w
  /\ set_notificationsEnabled (notificationsEnabled (this w)) (this w') = this w
  /\ requestNotificationPermission None answer w = (w, false)
  /\ (permission_after permission answer <> Default ->
      forall answer',
        requestNotificationPermission (Some (permission_after permission answer)) answer' w'
        = (w', false)).
Proof.
  unfold requestNotificationPermission.
  destruct w as [m b]. destruct m.
  destruct permission; destruct answer; cbn;
    repeat split; try discriminate; try reflexivity; try congruence;
    try (intros H; now contradiction H).
Qed.

Lemma requestNotificationPermission_witness :
  let asked_once := fst (requestNotificationPermission (Some Default) Denied initial_world) in
  notificationsEnabled (this asked_once) = false
  /\ requestNotificationPermission (Some Denied) Granted asked_once = (asked_once, false).
Proof.
  intros asked_once.
  destruct (requestNotificationPermission_follows_permission Default Denied initial_world)
    as [_ [_ [_ [_ [_ Hagain]]]]].
  split; [reflexivity|].
  apply (Hagain ltac:(discriminate) Granted).
Defined.

(* ------------------------------------------------------------------ *)
(** *** Memory and storage *)
(* ------------------------------------------------------------------ *)

(** The generations the monitor holds are the stored ones, timestamps
    apart; with nothing stored it holds none. *)
Definition in_sync (w : World) : Prop :=
  match Stored.nola_monitor_data (localStorage (browser w)) with
  | Some data =>
      map timeless (currentNews (this w)) = map timeless (Stored.currentNews data)
      /\ map timeless (previousNews (this w)) = map timeless (Stored.previousNews data)
  | None => currentNews (this w) = [] /\ previousNews (this w) = []
  end.

Lemma startAutoCheck_data (w : World) :
  Stored.nola_monitor_data (localStorage (browser (startAutoCheck w)))
  = Stored.nola_monitor_data (localStorage (browser w))
  /\ Stored.nola_monitor_history (localStorage (browser (startAutoCheck w)))
     = Stored.nola_monitor_history (localStorage (browser w)).
Proof. unfold startAutoCheck. destruct (autoCheckInterval (this w)); now split. Qed.

Lemma stopAutoCheck_data (w : World) :
  Stored.nola_monitor_data (localStorage (browser (stopAutoCheck w)))
  = Stored.nola_monitor_data (localStorage (browser w))
  /\ Stored.nola_monitor_history (localStorage (browser (stopAutoCheck w)))
     = Stored.nola_monitor_history (localStorage (browser w))
  /\ currentNews (this (stopAutoCheck w)) = currentNews (this w)
  /\ previousNews (this (stopAutoCheck w)) = previousNews (this w).
Proof. unfold stopAutoCheck. destruct (autoCheckInterval (this w)); now repeat split. Qed.

Lemma open_page_storage (storage : Stored.LocalStorage) :
  Stored.nola_monitor_data (localStorage (browser (open_page storage)))
  = Stored.nola_monitor_data storage
  /\ Stored.nola_monitor_history (localStorage (browser (open_page storage)))
     = Stored.nola_monitor_history storage.
Proof.
  unfold open_page, loadFromStorage. cbn [browser localStorage this].
  destruct (Stored.nola_monitor_autocheck storage) as [[[|] i]|]; cbn [Stored.enabled];
    try (now split).
  match goal with |- context [startAutoCheck ?x] =>
    destruct (startAutoCheck_data x) as [Hd Hh] end.
  rewrite Hd, Hh. now split.
Qed.

Lemma open_page_in_sync (storage : Stored.LocalStorage) : in_sync (open_page storage).
Proof.
  unfold in_sync. rewrite (proj1 (open_page_storage storage)).
  unfold open_page.
  match goal with |- context [loadFromStorage ?x] =>
    destruct (loadFromStorage_news x) as [Hc [Hp _]] end.
  rewrite Hc, Hp. cbn [browser localStorage].
  destruct (Stored.nola_monitor_data storage); [|now split].
  split; apply JSON_item_timeless.
Qed.

Section Synchrony.

Variable Date_parse : string -> JSNumber.
Variable querySelectorAll : string -> list Anchor.

Let act := perform Date_parse querySelectorAll.
Let act_all := perform_all Date_parse querySelectorAll.

Lemma checkForUpdates_storage net now (w : World) :
  let w' := checkForUpdates Date_parse querySelectorAll net now w in
  (this w' = this w /\ localStorage (browser w') = localStorage (browser w))
  \/ (Stored.nola_monitor_data (localStorage (browser w'))
      = Some (Stored.mkData now (currentNews (this w')) (previousNews (this w')))
      /\ (List.length (getHistory w') <= 10)%nat).
Proof.
  cbv zeta.
  destruct (fetchRealNewsData Date_parse querySelectorAll net now (requests (browser w)))
    as [[freshData|message] requests'] eqn:E.
  - right.
    destruct (checkForUpdates_success_state Date_parse querySelectorAll net now w _ _ E)
      as [Hc [Hp [_ [Hh _]]]].
    rewrite Hh, Hc, Hp. split; [|rewrite length_firstn; lia].
    rewrite (checkForUpdates_success Date_parse querySelectorAll net now w _ _ E).
    cbv zeta. set (changes := detectChanges _ _). set (w1 := addToHistory _ _ _ _).
    destruct (0 <? List.length changes)%nat; [|reflexivity].
    destruct (sendNotifications_raises changes w1) as [_ [Hl _]].
    cbn [updateStatus browser set_status localStorage]. now rewrite Hl.
  - left. rewrite (checkForUpdates_failure Date_parse querySelectorAll net now w _ _ E).
    now split.
Qed.

Lemma perform_in_sync (a : Action) (w : World) : in_sync w -> in_sync (act w a).
Proof.
  intros Hw. destruct a as [net now| |minutes|confirmed|keyword|]; unfold act;
    cbn [perform].
  - destruct (checkForUpdates_storage net now w) as [[Ht Hl]|[Hd _]]; unfold in_sync.
    + now rewrite Ht, Hl.
    + rewrite Hd. now split.
  - unfold toggleAutoCheck, in_sync in *. destruct (autoCheckEnabled (this w)).
    + destruct (stopAutoCheck_data w) as [Hd [_ [Hc Hp]]]. now rewrite Hd, Hc, Hp.
    + destruct (startAutoCheck_data w) as [Hd _].
      destruct (startAutoCheck_news w) as [Hc [Hp _]]. now rewrite Hd, Hc, Hp.
  - unfold setCheckInterval, in_sync in *.
    cbn [this autoCheckEnabled set_checkIntervalMinutes].
    destruct (autoCheckEnabled (this w)); [|exact Hw].
    match goal with |- context [startAutoCheck ?x] =>
      destruct (startAutoCheck_data x) as [Hd _];
      destruct (startAutoCheck_news x) as [Hc [Hp _]] end.
    rewrite Hd, Hc, Hp.
    match goal with |- context [stopAutoCheck ?x] =>
      destruct (stopAutoCheck_data x) as [Hd' [_ [Hc' Hp']]] end.
    rewrite Hd', Hc', Hp'. exact Hw.
  - destruct confirmed; [|exact Hw]. unfold in_sync, clearHistory.
    destruct (autoCheckEnabled (this w)); now split.
  - unfold toggleKeyword, in_sync in *.
    destruct (StringSet.has (activeKeywords (this w)) keyword); exact Hw.
  - apply open_page_in_sync.
Qed.

Lemma perform_history_bounded (a : Action) (w : World) :
  (List.length (getHistory w) <= 10)%nat ->
  (List.length (getHistory (act w a)) <= 10)%nat.
Proof.
  intros Hw. destruct a as [net now| |minutes|confirmed|keyword|]; unfold act;
    cbn [perform].
  - destruct (checkForUpdates_storage net now w) as [[_ Hl]|[_ Hh]]; [|exact Hh].
    unfold getHistory in *. now rewrite Hl.
  - unfold toggleAutoCheck, getHistory in *. destruct (autoCheckEnabled (this w)).
    + now rewrite (proj1 (proj2 (stopAutoCheck_data w))).
    + now rewrite (proj2 (startAutoCheck_data w)).
  - unfold setCheckInterval, getHistory in *.
    cbn [this autoCheckEnabled set_checkIntervalMinutes].
    destruct (autoCheckEnabled (this w)); [|exact Hw].
    match goal with |- context [startAutoCheck ?x] =>
      rewrite (proj2 (startAutoCheck_data x)) end.
    match goal with |- context [stopAutoCheck ?x] =>
      rewrite (proj1 (proj2 (stopAutoCheck_data x))) end.
    exact Hw.
  - destruct confirmed; [|exact Hw]. unfold getHistory, clearHistory.
    destruct (autoCheckEnabled (this w)); simpl; lia.
  - unfold toggleKeyword, getHistory in *.
    destruct (StringSet.has (activeKeywords (this w)) keyword); exact Hw.
  - unfold reload, getHistory in *.
    now rewrite (proj2 (open_page_storage (localStorage (browser w)))).
Qed.

(** X18.  Whatever was stored when the page was opened and whatever the user
    and the timer have done since, the generations the monitor holds are the
    ones in storage: the same records in the same order with the same fields,
    timestamps apart (a [NaN] timestamp is not stored as such); with no
    snapshot stored the monitor holds no records. *)
Theorem memory_matches_storage (storage : Stored.LocalStorage) (actions : list Action) :
  let w := act_all actions (open_page storage) in
  match Stored.nola_monitor_data (localStorage (browser w)) with
  | Some data =>
      map timeless (currentNews (this w)) = map timeless (Stored.currentNews data)
      /\ map timeless (previousNews (this w)) = map timeless (Stored.previousNews data)
  | None => currentNews (this w) = [] /\ previousNews (this w) = []
  end.
Proof.
  cbv zeta. change (in_sync (act_all actions (open_page storage))).
  generalize (open_page_in_sync storage). generalize (open_page storage).
  unfold act_all, perform_all.
  induction actions as [|a actions IH]; intros w Hw; [exact Hw|].
  simpl. apply IH. now apply perform_in_sync.
Qed.

(** X19.  A stored history of at most ten entries stays at most ten entries
    long whatever the user and the timer do: cycles that succeed add an entry
    and drop the oldest beyond ten, cycles that fail add none, and nothing
    else but [clearHistory] touches the history. *)
Theorem history_stays_bounded (storage : Stored.LocalStorage) (actions : list Action) :
  (List.length (match Stored.nola_monitor_history storage with
                | Some history => history
                | None => []
                end) <= 10)%nat ->
  (List.length (getHistory (act_all actions (open_page storage))) <= 10)%nat.
Proof.
  intros H0.
  assert (Hw : (List.length (getHistory (open_page storage)) <= 10)%nat).
  { unfold getHistory. now rewrite (proj2 (open_page_storage storage)). }
  clear H0. revert Hw. generalize (open_page storage).
  unfold act_all, perform_all.
  induction actions as [|a actions IH]; intros w Hw; [exact Hw|].
  simpl. apply IH. now apply perform_history_bounded.
Qed.

End Synchrony.

Lemma history_stays_bounded_witness :
  (List.length
     (getHistory
        (perform_all calendar three_headlines
           [CheckNow first_relay_up 1000; ClickAutoCheck; CheckNow all_relays_down 2000;
            ReloadPage; CheckNow first_relay_up 3000]
           (open_page empty_storage))) <= 10)%nat.
Proof.
  apply (history_stays_bounded calendar three_headlines empty_storage). simpl. lia.
Defined.

(* ------------------------------------------------------------------ *)
(** *** The date of a record *)
(* ------------------------------------------------------------------ *)

Fixpoint all_of (p : ascii -> bool) (s : string) : bool :=
  match s with
  | EmptyString => true
  | String a s' => p a && all_of p s'
  end.

Lemma seq_Some (m1 m2 : Regex.matcher) (s r : string) :
  Regex.seq m1 m2 s = Some r <-> exists t, m1 s = Some t /\ m2 t = Some r.
Proof.
  unfold Regex.seq. destruct (m1 s) as [t|]; split.
  - intros H. now exists t.
  - intros [t' [H1 H2]]. now injection H1 as ->.
  - discriminate.
  - intros [t' [H1 _]]. discriminate.
Qed.

Lemma one_Some (p : ascii -> bool) (s t : string) :
  Regex.one p s = Some t <-> exists a, s = String a t /\ p a = true.
Proof.
  unfold Regex.one. destruct s as [|a s]; split.
  - discriminate.
  - intros [a [H _]]. discriminate.
  - destruct (p a) eqn:E; [|discriminate]. intros H. injection H as <-. now exists a.
  - intros [b [H Hb]]. injection H as <- <-. now rewrite Hb.
Qed.

Lemma many_split (p : ascii -> bool) (s : string) :
  exists l, s = (l ++ Regex.many p s)%string /\ all_of p l = true.
Proof.
  induction s as [|a s [l [Hs Hl]]]; [now exists ""|].
  simpl. destruct (p a) eqn:E.
  - exists (String a l). simpl. rewrite E, Hl. split; [now rewrite <- Hs|reflexivity].
  - now exists "".
Qed.

Lemma many_stops (p : ascii -> bool) (l : string) (c : ascii) (rest : string) :
  all_of p l = true -> p c = false ->
  Regex.many p (l ++ String c rest) = String c rest.
Proof.
  intros Hl Hc. induction l as [|a l IH]; simpl in *.
  - now rewrite Hc.
  - apply andb_true_iff in Hl. destruct Hl as [Ha Hl]. rewrite Ha. now apply IH.
Qed.

Lemma append_assoc (a b c : string) : ((a ++ b) ++ c = a ++ (b ++ c))%string.
Proof. induction a as [|x a IH]; simpl; [reflexivity|]. now rewrite IH. Qed.

Lemma length_append (a b : string) :
  String.length (a ++ b) = (String.length a + String.length b)%nat.
Proof. induction a as [|x a IH]; simpl; [reflexivity|]. now rewrite IH. Qed.

Lemma take_append (a b : string) : JS.take (String.length a) (a ++ b) = a.
Proof. induction a as [|x a IH]; simpl; [now destruct b|]. now rewrite IH. Qed.

Lemma matched_text (p r : string) :
  JS.take (String.length (p ++ r) - String.length r) (p ++ r) = p.
Proof.
  rewrite length_append.
  replace (String.length p + String.length r - String.length r)%nat
    with (String.length p) by lia.
  apply take_append.
Qed.

(** A match of the date pattern consumes a text that matches it as a whole. *)
Lemma date_pattern_prefix (s r : string) :
  Regex.date_pattern s = Some r ->
  exists p, s = (p ++ r)%string /\ Regex.date_pattern p = Some "".
Proof.
  unfold Regex.date_pattern. intros H.
  apply seq_Some in H. destruct H as [t9 [H Hy4]].
  apply seq_Some in H. destruct H as [t8 [H Hy3]].
  apply seq_Some in H. destruct H as [t7 [H Hy2]].
  apply seq_Some in H. destruct H as [t6 [H Hy1]].
  apply seq_Some in H. destruct H as [t5 [H Hcomma]].
  apply seq_Some in H. destruct H as [t4 [H Hopt]].
  apply seq_Some in H. destruct H as [t3 [H Hd1]].
  apply seq_Some in H. destruct H as [t2 [H Hspace]].
  apply seq_Some in H. destruct H as [t1 [HU Hplus]].
  unfold Regex.plus in Hplus. apply seq_Some in Hplus. destruct Hplus as [t1' [Hl0 Hmany]].
  injection Hmany as Hmany.
  apply one_Some in HU. destruct HU as [U [-> HU]].
  apply one_Some in Hl0. destruct Hl0 as [l0 [-> Hl0]].
  destruct (many_split JS.is_lower t1') as [lows [Hsplit Hlows]].
  rewrite Hmany in Hsplit. subst t1'. clear Hmany.
  apply lit_Some in Hspace. subst t2.
  apply one_Some in Hd1. destruct Hd1 as [d1 [-> Hd1]].
  apply lit_Some in Hcomma.
  apply one_Some in Hy1. destruct Hy1 as [y1 [-> Hy1]].
  apply one_Some in Hy2. destruct Hy2 as [y2 [-> Hy2]].
  apply one_Some in Hy3. destruct Hy3 as [y3 [-> Hy3]].
  apply one_Some in Hy4. destruct Hy4 as [y4 [-> Hy4]].
  subst t5.
  assert (Hone : forall p a t, p a = true -> Regex.one p (String a t) = Some t).
  { intros p a t Ha. apply one_Some. now exists a. }
  assert (Hlower : forall tail,
    Regex.plus JS.is_lower (String l0 (lows ++ String " " tail)) = Some (String " " tail)).
  { intros tail. unfold Regex.plus. apply seq_Some. exists (lows ++ String " " tail)%string.
    split; [now apply Hone|]. f_equal. now apply many_stops. }
  set (year := String y1 (String y2 (String y3 (String y4 "")))).
  assert (Hyear : forall (m : Regex.matcher) p,
            m p = Some year ->
            Regex.seq (Regex.seq (Regex.seq (Regex.seq m
              (Regex.one JS.is_digit)) (Regex.one JS.is_digit))
              (Regex.one JS.is_digit)) (Regex.one JS.is_digit) p = Some "").
  { intros m p Hm.
    apply seq_Some. exists (String y4 ""). split; [|now apply Hone].
    apply seq_Some. exists (String y3 (String y4 "")). split; [|now apply Hone].
    apply seq_Some. exists (String y2 (String y3 (String y4 ""))).
    split; [|now apply Hone].
    apply seq_Some. exists year. split; [exact Hm|now apply Hone]. }
  assert (Hday : forall tail,
            Regex.seq (Regex.seq (Regex.seq (Regex.one JS.is_upper)
              (Regex.plus JS.is_lower)) (Regex.lit " ")) (Regex.one JS.is_digit)
              (String U (String l0 (lows ++ String " " (String d1 tail))))
            = Some tail).
  { intros tail.
    apply seq_Some. exists (String d1 tail). split; [|now apply Hone].
    apply seq_Some. exists (String " " (String d1 tail)). split; [|reflexivity].
    apply seq_Some. exists (String l0 (lows ++ String " " (String d1 tail))).
    split; [now apply Hone|apply Hlower]. }
  unfold Regex.opt in Hopt.
  destruct (Regex.one JS.is_digit t4) as [t4'|] eqn:Hd2; injection Hopt as Hopt.
  - apply one_Some in Hd2. destruct Hd2 as [d2 [-> Hd2]]. subst t4'.
    exists (String U (String l0 (lows ++ " " ++ String d1 (String d2 (", " ++ year)))))%string.
    split.
    + cbn [append]. do 2 f_equal. rewrite append_assoc. reflexivity.
    + cbn [append]. apply Hyear.
      apply seq_Some. exists (String "," (String " " year)). split; [|reflexivity].
      apply seq_Some. exists (String d2 (String "," (String " " year))).
      split; [apply Hday|]. unfold Regex.opt. now rewrite (Hone JS.is_digit d2 _ Hd2).
  - subst t4.
    exists (String U (String l0 (lows ++ " " ++ String d1 (", " ++ year))))%string.
    split.
    + cbn [append]. do 2 f_equal. rewrite append_assoc. reflexivity.
    + cbn [append]. apply Hyear.
      apply seq_Some. exists (String "," (String " " year)). split; [|reflexivity].
      apply seq_Some. exists (String "," (String " " year)).
      split; [apply Hday|reflexivity].
Qed.

Lemma startsWith_append (p r : string) : JS.startsWith (p ++ r) p = true.
Proof.
  induction p as [|a p IH]; [reflexivity|].
  cbn [append]. rewrite startsWith_cons, IH. now rewrite Ascii.eqb_refl.
Qed.

Lemma search_date (s d : string) :
  Regex.search Regex.date_pattern s = Some d ->
  Regex.date_pattern d = Some "" /\ JS.includes s d = true.
Proof.
  induction s as [|c s IH]; cbn [Regex.search].
  { change (Regex.date_pattern "") with (@None string). discriminate. }
  destruct (Regex.date_pattern (String c s)) as [r|] eqn:E.
  - apply date_pattern_prefix in E. destruct E as [p [Hp Hd]].
    rewrite Hp, matched_text. intros H. injection H as <-. split; [exact Hd|].
    apply includes_startsWith, startsWith_append.
  - intros H. destruct (IH H) as [Hd Hi]. split; [exact Hd|].
    cbn [JS.includes]. rewrite Hi. apply orb_true_r.
Qed.

(** X20.  The date of a record is decided by the text around its headline.
    If that text holds a piece of the form capitalised word, one or two
    digits, comma, four digits, the date is such a piece of the text, it
    matches that form as a whole, and the timestamp is whatever the date
    parser makes of it.  If the text holds no such piece, the date is
    "Recent" and the timestamp is the retrieval time. *)
Theorem parse_anchor_date
    (Date_parse : string -> JSNumber) (now : Z) (a : Anchor) (i : nat) (r : NewsItem) :
  parse_anchor Date_parse now a i = Some r ->
  (Regex.search Regex.date_pattern (container_textContent a) = Some (date r)
   /\ Regex.date_pattern (date r) = Some ""
   /\ JS.includes (container_textContent a) (date r) = true
   /\ timestamp r = Date_parse (date r))
  \/ (Regex.search Regex.date_pattern (container_textContent a) = None
      /\ date r = "Recent"
      /\ timestamp r = Num now).
Proof.
  unfold parse_anchor.
  destruct (JS.truthy (JS.trim (textContent a))
            && (3 <? String.length (JS.trim (textContent a)))%nat); [|discriminate].
  intros H. injection H as <-. cbn [date timestamp].
  destruct (Regex.search Regex.date_pattern (container_textContent a)) as [d|] eqn:E.
  - left. destruct (search_date _ _ E) as [Hd Hi].
    assert (Ht : JS.truthy d = true).
    { destruct d; [discriminate Hd|reflexivity]. }
    unfold JS.or_else, Date_getTime. rewrite Ht. now repeat split.
  - right. now repeat split.
Qed.

Lemma parse_anchor_date_witness :
  exists r,
    parse_anchor calendar 1000 dated_anchor 0 = Some r
    /\ date r = "August 7, 2025"
    /\ Regex.date_pattern (date r) = Some ""
    /\ timestamp r = Num 1754524800000.
Proof.
  eexists. split; [reflexivity|].
  destruct (parse_anchor_date calendar 1000 dated_anchor 0 _ eq_refl)
    as [[_ [Hd [_ Ht]]]|[Hnone _]]; [|discriminate Hnone].
  split; [reflexivity|]. split; [exact Hd|exact Ht].
Defined.

(* ------------------------------------------------------------------ *)
(** *** What a cycle reports *)
(* ------------------------------------------------------------------ *)

Section CycleReport.

Variable Date_parse : string -> JSNumber.
Variable querySelectorAll : string -> list Anchor.
Variable net : Net.Network.
Variable now : Z.

Lemma proxy_attempt_requests (proxy : string) (requests : list string) :
  snd (proxy_attempt Date_parse querySelectorAll net now proxy requests)
  = requests ++ [request_url proxy].
Proof.
  unfold proxy_attempt. fold (request_url proxy).
  destruct (net (request_url proxy)) as [e|status [html|e]];
    [reflexivity|destruct (negb (Net.ok status)); reflexivity..].
Qed.

(** The loop requests the relays in order, each once, and stops early only
    with a result. *)
Lemma proxy_loop_requests (later : list string) :
  forall proxy requests,
    exists n,
      (1 <= n <= S (List.length later))%nat
      /\ snd (proxy_loop Date_parse querySelectorAll net now proxy later requests)
         = requests ++ firstn n (map request_url (proxy :: later))
      /\ (forall e,
            fst (proxy_loop Date_parse querySelectorAll net now proxy later requests)
            = Throw e -> n = S (List.length later)).
Proof.
  induction later as [|next later IH]; intros proxy requests.
  - exists 1%nat. split; [simpl; lia|].
    pose proof (proxy_attempt_requests proxy requests) as Hr.
    cbn [proxy_loop].
    destruct (proxy_attempt Date_parse querySelectorAll net now proxy requests)
      as [[items|e] requests']; cbn [snd] in Hr; subst requests'; now split.
  - pose proof (proxy_attempt_requests proxy requests) as Hr.
    cbn [proxy_loop].
    destruct (proxy_attempt Date_parse querySelectorAll net now proxy requests)
      as [[items|e] requests']; cbn [snd] in Hr; subst requests'.
    + exists 1%nat. split; [simpl; lia|]. split; [reflexivity|discriminate].
    + destruct (IH next (requests ++ [request_url proxy])) as [n [Hn [Hs Ht]]].
      exists (S n). split; [simpl in *; lia|]. split.
      * rewrite Hs, <- app_assoc. reflexivity.
      * intros e' He'. f_equal. now apply (Ht e').
Qed.

(** X21.  Every cycle requests at least one relay and at most all three, in
    their fixed order and none twice, and ends by writing the status line:
    on success the number of records found and of changes detected, on
    failure, which takes a request to every relay, the one message "Error:
    Unable to fetch news data. Please check your internet connection.",
    whatever the relays' own errors were. *)
Theorem checkForUpdates_reports (w : World) :
  let w' := checkForUpdates Date_parse querySelectorAll net now w in
  let fetched :=
    fetchRealNewsData Date_parse querySelectorAll net now (requests (browser w)) in
  exists n,
    (1 <= n <= 3)%nat
    /\ requests (browser w')
       = requests (browser w) ++ firstn n (map request_url proxies)
    /\ match fst fetched with
       | Normal freshData =>
           status (browser w')
           = Some (found_message (List.length freshData)
                     (List.length (detectChanges (currentNews (this w)) freshData)),
                   true)
       | Throw _ =>
           n = 3%nat
           /\ status (browser w')
              = Some (("Error: " ++ fetch_error_message)%string, false)
       end.
Proof.
  cbv zeta.
  destruct (proxy_loop_requests
              ["https://cors-anywhere.herokuapp.com/";
               "https://api.codetabs.com/v1/proxy?quest="]
              "https://corsproxy.io/?" (requests (browser w))) as [n [Hn [Hs Ht]]].
  exists n. split; [simpl in Hn; lia|].
  destruct (fetchRealNewsData Date_parse querySelectorAll net now (requests (browser w)))
    as [[freshData|message] requests'] eqn:E.
  - destruct (checkForUpdates_success_state Date_parse querySelectorAll net now w _ _ E)
      as [_ [_ [_ [_ [Hst [Hr _]]]]]].
    rewrite Hr. cbn [fst]. split; [|exact Hst].
    unfold fetchRealNewsData in E. unfold proxies in E |- *.
    destruct (proxy_loop _ _ _ _ _ _ _) as [[items|e] requests''];
      injection E as _ <-; exact Hs.
  - rewrite (checkForUpdates_failure Date_parse querySelectorAll net now w _ _ E).
    cbn [fst updateStatus browser set_status set_requests requests status].
    unfold fetchRealNewsData in E. unfold proxies in E |- *.
    destruct (proxy_loop _ _ _ _ _ _ _) as [[items|e] requests''] eqn:El;
      [discriminate|]. injection E as <- <-.
    split; [exact Hs|]. split; [|reflexivity]. now apply (Ht e).
Qed.

End CycleReport.
